(** * atom::api::WebContents: guest size negotiation, attachment and teardown

    A shallow embedding of the parts of
    [atom/browser/api/atom_api_web_contents.cc] that carry the guest-view
    life cycle: the [SetSizeParams] converter, [SetSize],
    [GuestSizeChanged], [WillAttach], [Destroy], [IsAlive] and
    [DidUpdateFaviconURL].

    Conventions.
    - A C++ [int] is a [Z]; the code only compares, copies and tests these
      integers against zero, so no wrap-around can occur.
    - A raw pointer or [scoped_ptr] is an [option]: [None] is [nullptr].
      Calling through a null pointer is a [Crash].
    - Calls that leave the object (events given to [Emit], requests to the
      render view host and to the guest host) are appended to a log, in
      program order.  Listeners run by [Emit] are not part of the model. *)

From Stdlib Require Import ZArith List String Bool Lia Sorted.
From Stdlib Require OrderedTypeEx.
Import ListNotations.
Local Open Scope string_scope.
Local Open Scope Z_scope.
Local Open Scope list_scope.

(** ** gfx::Size (Chromium's ui/gfx/geometry/size.h) *)

Module gfx.

Record Size : Type := mkSize { width : Z; height : Z }.

(** [Size()] *)
Definition zero : Size := mkSize 0 0.

(** [Size(int width, int height)]: negative components become 0. *)
Definition make (w h : Z) : Size :=
  mkSize (if w <? 0 then 0 else w) (if h <? 0 then 0 else h).

Definition set_width (s : Size) (w : Z) : Size :=
  mkSize (if w <? 0 then 0 else w) (height s).

Definition set_height (s : Size) (h : Z) : Size :=
  mkSize (width s) (if h <? 0 then 0 else h).

Definition SetSize (s : Size) (w h : Z) : Size :=
  set_height (set_width s w) h.

(** [!width() || !height()] *)
Definition IsEmpty (s : Size) : bool :=
  (width s =? 0) || (height s =? 0).

Definition SetToMin (s other : Size) : Size :=
  mkSize (if width s <=? width other then width s else width other)
         (if height s <=? height other then height s else height other).

Definition SetToMax (s other : Size) : Size :=
  mkSize (if width s >=? width other then width s else width other)
         (if height s >=? height other then height s else height other).

(** Component-wise order. *)
Definition le (a b : Size) : Prop :=
  width a <= width b /\ height a <= height b.

End gfx.

(** ** The object and its surroundings *)

(** Objects of the content layer are named by handles. *)
Definition handle : Type := nat.

(** [struct SetSizeParams]: four [scoped_ptr]s, all null when built. *)
Record SetSizeParams : Type := mkSetSizeParams {
  enable_auto_size : option bool;
  min_size         : option gfx.Size;
  max_size         : option gfx.Size;
  normal_size      : option gfx.Size
}.

Definition SetSizeParams_default : SetSizeParams :=
  mkSetSizeParams None None None None.

(** The data members of [WebContents] the modelled methods read or write.
    [web_contents_] is the pointer held by the [WebContentsObserver] base,
    read through [web_contents()] and written by [Observe]. *)
Record WebContents : Type := mkWebContents {
  web_contents_          : option handle;
  storage_               : option handle;
  guest_instance_id_     : Z;
  guest_opaque_          : bool;
  guest_host_            : option handle;
  embedder_web_contents_ : option handle;
  auto_size_enabled_     : bool;
  is_full_page_plugin_   : bool;
  min_auto_size_         : gfx.Size;
  max_auto_size_         : gfx.Size;
  normal_size_           : gfx.Size;
  guest_size_            : gfx.Size
}.

Definition set_web_contents_ (v : option handle) (t : WebContents) :=
  mkWebContents v (storage_ t) (guest_instance_id_ t) (guest_opaque_ t)
    (guest_host_ t) (embedder_web_contents_ t) (auto_size_enabled_ t)
    (is_full_page_plugin_ t) (min_auto_size_ t) (max_auto_size_ t)
    (normal_size_ t) (guest_size_ t).

Definition set_storage_ (v : option handle) (t : WebContents) :=
  mkWebContents (web_contents_ t) v (guest_instance_id_ t) (guest_opaque_ t)
    (guest_host_ t) (embedder_web_contents_ t) (auto_size_enabled_ t)
    (is_full_page_plugin_ t) (min_auto_size_ t) (max_auto_size_ t)
    (normal_size_ t) (guest_size_ t).

Definition set_guest_host_ (v : option handle) (t : WebContents) :=
  mkWebContents (web_contents_ t) (storage_ t) (guest_instance_id_ t)
    (guest_opaque_ t) v (embedder_web_contents_ t) (auto_size_enabled_ t)
    (is_full_page_plugin_ t) (min_auto_size_ t) (max_auto_size_ t)
    (normal_size_ t) (guest_size_ t).

Definition set_embedder_web_contents_ (v : option handle) (t : WebContents) :=
  mkWebContents (web_contents_ t) (storage_ t) (guest_instance_id_ t)
    (guest_opaque_ t) (guest_host_ t) v (auto_size_enabled_ t)
    (is_full_page_plugin_ t) (min_auto_size_ t) (max_auto_size_ t)
    (normal_size_ t) (guest_size_ t).

Definition set_auto_size_enabled_ (v : bool) (t : WebContents) :=
  mkWebContents (web_contents_ t) (storage_ t) (guest_instance_id_ t)
    (guest_opaque_ t) (guest_host_ t) (embedder_web_contents_ t) v
    (is_full_page_plugin_ t) (min_auto_size_ t) (max_auto_size_ t)
    (normal_size_ t) (guest_size_ t).

Definition set_is_full_page_plugin_ (v : bool) (t : WebContents) :=
  mkWebContents (web_contents_ t) (storage_ t) (guest_instance_id_ t)
    (guest_opaque_ t) (guest_host_ t) (embedder_web_contents_ t)
    (auto_size_enabled_ t) v (min_auto_size_ t) (max_auto_size_ t)
    (normal_size_ t) (guest_size_ t).

Definition set_min_auto_size_ (v : gfx.Size) (t : WebContents) :=
  mkWebContents (web_contents_ t) (storage_ t) (guest_instance_id_ t)
    (guest_opaque_ t) (guest_host_ t) (embedder_web_contents_ t)
    (auto_size_enabled_ t) (is_full_page_plugin_ t) v (max_auto_size_ t)
    (normal_size_ t) (guest_size_ t).

Definition set_max_auto_size_ (v : gfx.Size) (t : WebContents) :=
  mkWebContents (web_contents_ t) (storage_ t) (guest_instance_id_ t)
    (guest_opaque_ t) (guest_host_ t) (embedder_web_contents_ t)
    (auto_size_enabled_ t) (is_full_page_plugin_ t) (min_auto_size_ t) v
    (normal_size_ t) (guest_size_ t).

Definition set_normal_size_ (v : gfx.Size) (t : WebContents) :=
  mkWebContents (web_contents_ t) (storage_ t) (guest_instance_id_ t)
    (guest_opaque_ t) (guest_host_ t) (embedder_web_contents_ t)
    (auto_size_enabled_ t) (is_full_page_plugin_ t) (min_auto_size_ t)
    (max_auto_size_ t) v (guest_size_ t).

Definition set_guest_size_ (v : gfx.Size) (t : WebContents) :=
  mkWebContents (web_contents_ t) (storage_ t) (guest_instance_id_ t)
    (guest_opaque_ t) (guest_host_ t) (embedder_web_contents_ t)
    (auto_size_enabled_ t) (is_full_page_plugin_ t) (min_auto_size_ t)
    (max_auto_size_ t) (normal_size_ t) v.

(** [GURL]: the canonical text and the validity flag.  [operator<], which
    orders a [std::set<GURL>], compares the text. *)
Record GURL : Type := mkGURL { spec : string; is_valid : bool }.

(** Arguments handed to [Emit]. *)
Inductive Arg : Type :=
| AInt (z : Z)
| AUrlSet (urls : list GURL).

(** What the object does to the outside, in program order. *)
Inductive Effect : Type :=
| Emit (name : string) (args : list Arg)
| EnableAutoResize (rvh : handle) (min max : gfx.Size)
| DisableAutoResize (rvh : handle) (new_size : gfx.Size)
| SizeContents (guest_host : handle) (new_size : gfx.Size)
| WillDestroy (guest_host : handle).

Record World : Type := mkWorld { this : WebContents; log : list Effect }.

(** ** A state monad with crashes *)

Inductive Outcome (A : Type) : Type :=
| Done (a : A) (w : World)
| Crash (w : World).
Arguments Done {A} a w.
Arguments Crash {A} w.

Definition M (A : Type) : Type := World -> Outcome A.

Definition ret {A} (a : A) : M A := fun w => Done a w.

Definition bind {A B} (m : M A) (k : A -> M B) : M B :=
  fun w => match m w with
           | Done a w' => k a w'
           | Crash w' => Crash w'
           end.

Declare Scope cpp_scope.
Delimit Scope cpp_scope with cpp.
Notation "x <- m ;; k" := (bind m (fun x => k))
  (at level 61, m at next level, right associativity) : cpp_scope.
Notation "m ;; k" := (bind m (fun _ => k))
  (at level 61, right associativity) : cpp_scope.
Local Open Scope cpp_scope.

Definition read {A} (f : WebContents -> A) : M A :=
  fun w => Done (f (this w)) w.

Definition write (f : WebContents -> WebContents) : M unit :=
  fun w => Done tt (mkWorld (f (this w)) (log w)).

Definition perform (e : Effect) : M unit :=
  fun w => Done tt (mkWorld (this w) (log w ++ [e])).

(** [p->...] *)
Definition deref {A} (p : option A) : M A :=
  fun w => match p with Some a => Done a w | None => Crash w end.

Definition when (b : bool) (m : M unit) : M unit :=
  if b then m else ret tt.

(** The world an outcome ends in. *)
Definition world_of {A} (o : Outcome A) : World :=
  match o with Done _ w => w | Crash w => w end.

(** ** The engine, as far as the methods query it *)

Record Engine : Type := mkEngine {
  (** [wc->GetRenderViewHost()] *)
  GetRenderViewHost : handle -> handle;
  (** [rvh->GetProcess()->GetID()] and [rvh->GetRoutingID()] *)
  GetProcessID : handle -> Z;
  GetRoutingID : handle -> Z;
  (** [wc->GetRenderWidgetHostView()->GetVisibleViewportSize()] *)
  GetVisibleViewportSize : handle -> gfx.Size
}.

Definition kDefaultWidth : Z := 300.
Definition kDefaultHeight : Z := 300.

Section Methods.

Variable engine : Engine.

Definition GuestSizeChangedDueToAutoSize (old_size new_size : gfx.Size)
  : M unit :=
  perform (Emit "size-changed"
             [AInt (gfx.width old_size); AInt (gfx.height old_size);
              AInt (gfx.width new_size); AInt (gfx.height new_size)]).

Definition GetDefaultSize : M gfx.Size :=
  full <- read is_full_page_plugin_ ;;
  if full then
    e <- read embedder_web_contents_ ;;
    wc <- deref e ;;
    ret (GetVisibleViewportSize engine wc)
  else
    ret (gfx.make kDefaultWidth kDefaultHeight).

Definition SetSize (params : SetSizeParams) : M unit :=
  stored <- read auto_size_enabled_ ;;
  let enable_auto_size :=
    match enable_auto_size params with Some b => b | None => stored end in
  stored_min <- read min_auto_size_ ;;
  let min_size :=
    match min_size params with Some s => s | None => stored_min end in
  stored_max <- read max_auto_size_ ;;
  let max_size :=
    match max_size params with Some s => s | None => stored_max end in
  match normal_size params with
  | Some s => write (set_normal_size_ s)
  | None => ret tt
  end ;;
  write (set_min_auto_size_ min_size) ;;
  write (fun t => set_min_auto_size_
                    (gfx.SetToMin (min_auto_size_ t) max_size) t) ;;
  write (set_max_auto_size_ max_size) ;;
  write (fun t => set_max_auto_size_
                    (gfx.SetToMax (max_auto_size_ t) min_size) t) ;;
  mn <- read min_auto_size_ ;;
  mx <- read max_auto_size_ ;;
  let enable_auto_size :=
    enable_auto_size && (negb (gfx.IsEmpty mn) && negb (gfx.IsEmpty mx)) in
  wc <- read web_contents_ ;;
  wc <- deref wc ;;
  let rvh := GetRenderViewHost engine wc in
  (if enable_auto_size then
     perform (EnableAutoResize rvh mn mx) ;;
     write (fun t => set_normal_size_ (gfx.SetSize (normal_size_ t) 0 0) t)
   else
     n <- read normal_size_ ;;
     when (negb (gfx.width n =? 0) && (gfx.height n =? 0))
       (d <- GetDefaultSize ;;
        write (fun t => set_normal_size_
                          (gfx.set_height (normal_size_ t) (gfx.height d)) t)) ;;
     n <- read normal_size_ ;;
     when ((gfx.width n =? 0) && negb (gfx.height n =? 0))
       (d <- GetDefaultSize ;;
        write (fun t => set_normal_size_
                          (gfx.set_width (normal_size_ t) (gfx.width d)) t)) ;;
     n <- read normal_size_ ;;
     g <- read guest_size_ ;;
     new_size <- (if negb (gfx.IsEmpty n) then ret n
                  else if negb (gfx.IsEmpty g) then ret g
                  else GetDefaultSize) ;;
     was <- read auto_size_enabled_ ;;
     (if was then
        perform (DisableAutoResize rvh new_size) ;;
        g <- read guest_size_ ;;
        GuestSizeChangedDueToAutoSize g new_size
      else
        gh <- read guest_host_ ;;
        gh <- deref gh ;;
        perform (SizeContents gh new_size)) ;;
     write (set_guest_size_ new_size)) ;;
  write (set_auto_size_enabled_ enable_auto_size).

Definition GuestSizeChanged (new_size : gfx.Size) : M unit :=
  enabled <- read auto_size_enabled_ ;;
  if negb enabled then ret tt
  else
    g <- read guest_size_ ;;
    GuestSizeChangedDueToAutoSize g new_size ;;
    write (set_guest_size_ new_size).

Definition SetGuestHost (guest_host : option handle) : M unit :=
  write (set_guest_host_ guest_host).

Definition WillAttach (embedder_web_contents : option handle)
    (element_instance_id : Z) (is_full_page_plugin : bool) : M unit :=
  write (set_embedder_web_contents_ embedder_web_contents) ;;
  write (set_is_full_page_plugin_ is_full_page_plugin).

Definition DidAttach (guest_proxy_routing_id : Z) : M unit :=
  perform (Emit "did-attach" []).

Definition GetOwnerWebContents : M (option handle) :=
  read embedder_web_contents_.

Definition RenderViewDeleted (render_view_host : handle) : M unit :=
  perform (Emit "render-view-deleted"
             [AInt (GetProcessID engine render_view_host);
              AInt (GetRoutingID engine render_view_host)]).

Definition WebContentsDestroyed : M unit :=
  wc <- read web_contents_ ;;
  wc <- deref wc ;;
  RenderViewDeleted (GetRenderViewHost engine wc) ;;
  perform (Emit "destroyed" []).

Definition Destroy : M unit :=
  st <- read storage_ ;;
  match st with
  | Some _ =>
      WebContentsDestroyed ;;
      gh <- read guest_host_ ;;
      gh <- deref gh ;;
      perform (WillDestroy gh) ;;
      write (set_guest_host_ None) ;;
      write (set_web_contents_ None) ;;
      write (set_storage_ None)
  | None => ret tt
  end.

Definition IsAlive : M bool :=
  wc <- read web_contents_ ;;
  ret (match wc with Some _ => true | None => false end).

End Methods.

(** ** Constructors *)

(** The constructor taking a [content::WebContents] pointer, used by
    [CreateFrom]: the object
    observes a surface it does not own.  No constructor initialises
    [embedder_web_contents_]; the model reads it as null until [WillAttach]
    writes it. *)
Definition WebContents_from (web_contents : option handle) : WebContents :=
  mkWebContents web_contents None (-1) true None None false false
    gfx.zero gfx.zero gfx.zero gfx.zero.

(** [WebContents(const mate::Dictionary&)], used by [Create]:
    [guestInstanceId] is what [options.Get] found, [storage] the
    [InspectableWebContents] just created and [web_contents] its
    [GetWebContents()]. *)
Definition WebContents_options (guestInstanceId : option Z)
    (storage web_contents : handle) : WebContents :=
  mkWebContents (Some web_contents) (Some storage)
    (match guestInstanceId with Some i => i | None => -1 end)
    true None None false false gfx.zero gfx.zero gfx.zero gfx.zero.

Definition fresh (t : WebContents) : World := mkWorld t [].

(** ** Favicons *)

Inductive IconType : Type :=
| INVALID_ICON | FAVICON | TOUCH_ICON | TOUCH_PRECOMPOSED_ICON.

Definition IconType_eqb (a b : IconType) : bool :=
  match a, b with
  | INVALID_ICON, INVALID_ICON | FAVICON, FAVICON
  | TOUCH_ICON, TOUCH_ICON
  | TOUCH_PRECOMPOSED_ICON, TOUCH_PRECOMPOSED_ICON => true
  | _, _ => false
  end.

Record FaviconURL : Type := mkFaviconURL {
  icon_url : GURL;
  icon_type : IconType
}.

(** [std::set<GURL>]: the elements in increasing order, one per key. *)
Module std_set.

(** [GURL::operator<] *)
Definition lt (a b : GURL) : bool := String.ltb (spec a) (spec b).

Fixpoint insert (u : GURL) (s : list GURL) : list GURL :=
  match s with
  | [] => [u]
  | v :: s' =>
      if lt u v then u :: v :: s'
      else if lt v u then v :: insert u s'
      else v :: s'
  end.

(** The elements are in strictly increasing order. *)
Definition ordered (s : list GURL) : Prop :=
  StronglySorted (fun a b => lt a b = true) s.

Definition all_valid (s : list GURL) : Prop :=
  Forall (fun v => is_valid v = true) s.

End std_set.

Fixpoint favicon_loop (urls : list FaviconURL) (unique_urls : list GURL)
  : list GURL :=
  match urls with
  | [] => unique_urls
  | iter :: rest =>
      if negb (IconType_eqb (icon_type iter) FAVICON) then
        favicon_loop rest unique_urls
      else
        let url := icon_url iter in
        if is_valid url then favicon_loop rest (std_set.insert url unique_urls)
        else favicon_loop rest unique_urls
  end.

Definition DidUpdateFaviconURL (urls : list FaviconURL) : M unit :=
  let unique_urls := favicon_loop urls [] in
  perform (Emit "page-favicon-updated" [AUrlSet unique_urls]).

(** ** The SetSizeParams converter *)

Section Converter.

(** [mate::Dictionary] and its typed [Get], from native_mate and
    gfx_converter: [Some v] when [Get] returns true and stores [v]. *)
Variables V8Value Dictionary : Type.
Variable ConvertFromV8 : V8Value -> option Dictionary.
Variable Get_bool : Dictionary -> string -> option bool.
Variable Get_Size : Dictionary -> string -> option gfx.Size.

Definition reset_enable_auto_size (b : bool) (o : SetSizeParams) :=
  mkSetSizeParams (Some b) (min_size o) (max_size o) (normal_size o).
Definition reset_min_size (s : gfx.Size) (o : SetSizeParams) :=
  mkSetSizeParams (enable_auto_size o) (Some s) (max_size o) (normal_size o).
Definition reset_max_size (s : gfx.Size) (o : SetSizeParams) :=
  mkSetSizeParams (enable_auto_size o) (min_size o) (Some s) (normal_size o).
Definition reset_normal_size (s : gfx.Size) (o : SetSizeParams) :=
  mkSetSizeParams (enable_auto_size o) (min_size o) (max_size o) (Some s).

(** Returns the [bool] result and the contents of [*out]. *)
Definition FromV8 (val : V8Value) (out : SetSizeParams)
  : bool * SetSizeParams :=
  match ConvertFromV8 val with
  | None => (false, out)
  | Some params =>
      let out :=
        match Get_bool params "enableAutoSize" with
        | Some autosize => reset_enable_auto_size true out
        | None => out
        end in
      let out :=
        match Get_Size params "min" with
        | Some size => reset_min_size size out
        | None => out
        end in
      let out :=
        match Get_Size params "max" with
        | Some size => reset_max_size size out
        | None => out
        end in
      let out :=
        match Get_Size params "normal" with
        | Some size => reset_normal_size size out
        | None => out
        end in
      (true, out)
  end.

End Converter.

(** A small reading of V8 values, enough to run the converter on concrete
    option objects. *)
Module v8.

#[local] Set Warnings "-register-all".
Inductive Value : Type :=
| Undefined
| Boolean (b : bool)
| Int32 (z : Z)
| Object (fields : list (string * Value)).

Definition Dictionary : Type := list (string * Value).

Definition ToDictionary (v : Value) : option Dictionary :=
  match v with Object fields => Some fields | _ => None end.

Fixpoint Get (d : Dictionary) (key : string) : Value :=
  match d with
  | [] => Undefined
  | (k, v) :: d' => if String.eqb k key then v else Get d' key
  end.

Definition ToBool (v : Value) : option bool :=
  match v with Boolean b => Some b | _ => None end.

Definition ToInt (v : Value) : option Z :=
  match v with Int32 z => Some z | _ => None end.

Definition ToSize (v : Value) : option gfx.Size :=
  match ToDictionary v with
  | Some d =>
      match ToInt (Get d "width"), ToInt (Get d "height") with
      | Some w, Some h => Some (gfx.make w h)
      | _, _ => None
      end
  | None => None
  end.

Definition Get_bool (d : Dictionary) (key : string) := ToBool (Get d key).
Definition Get_Size (d : Dictionary) (key : string) := ToSize (Get d key).

Definition SetSizeParams_FromV8 (val : Value) : bool * SetSizeParams :=
  FromV8 Value Dictionary ToDictionary Get_bool Get_Size val
    SetSizeParams_default.

Definition size (w h : Z) : Value :=
  Object [("width", Int32 w); ("height", Int32 h)].

End v8.

(** ** Sequences of calls *)

Inductive Call : Type :=
| CallSetSize (params : SetSizeParams)
| CallGuestSizeChanged (new_size : gfx.Size)
| CallSetGuestHost (guest_host : option handle)
| CallWillAttach (embedder : option handle) (element_instance_id : Z)
                 (is_full_page_plugin : bool)
| CallDidAttach (guest_proxy_routing_id : Z)
| CallDidUpdateFaviconURL (urls : list FaviconURL)
| CallDestroy.

Definition invoke (engine : Engine) (c : Call) : M unit :=
  match c with
  | CallSetSize params => SetSize engine params
  | CallGuestSizeChanged new_size => GuestSizeChanged new_size
  | CallSetGuestHost guest_host => SetGuestHost guest_host
  | CallWillAttach e i f => WillAttach e i f
  | CallDidAttach i => DidAttach i
  | CallDidUpdateFaviconURL urls => DidUpdateFaviconURL urls
  | CallDestroy => Destroy engine
  end.

Fixpoint invoke_all (engine : Engine) (cs : list Call) : M unit :=
  match cs with
  | [] => ret tt
  | c :: cs' => invoke engine c ;; invoke_all engine cs'
  end.

Definition is_Destroy (c : Call) : bool :=
  match c with CallDestroy => true | _ => false end.

(** [m] run [n] times in a row. *)
Fixpoint times (n : nat) (m : M unit) : M unit :=
  match n with
  | O => ret tt
  | S n' => m ;; times n' m
  end.

(** The worlds reached after each call of a sequence of [SetSize] calls;
    a crash ends the sequence. *)
Fixpoint SetSize_trace (engine : Engine) (ps : list SetSizeParams)
    (w : World) : list World :=
  match ps with
  | [] => []
  | p :: ps' =>
      match SetSize engine p w with
      | Done _ w' => w' :: SetSize_trace engine ps' w'
      | Crash w' => [w']
      end
  end.

(** How often an event of the given name was emitted. *)
Definition is_Emit (name : string) (e : Effect) : bool :=
  match e with
  | Emit n _ => String.eqb n name
  | _ => false
  end.

Definition emitted (name : string) (l : list Effect) : nat :=
  List.length (filter (is_Emit name) l).

(** An engine for examples: render view host [wc + 100], viewport 800x600. *)
Definition engine0 : Engine :=
  mkEngine (fun wc => (wc + 100)%nat) (fun _ => 7) (fun _ => 1)
           (fun _ => gfx.make 800 600).

(** ** Reading [SetSize] off the specification *)

(** Steps 1 and 2: a value given by the caller, else the stored one. *)
Definition requested (p : SetSizeParams) (t : WebContents) : bool :=
  match enable_auto_size p with Some b => b | None => auto_size_enabled_ t end.

Definition given_min (p : SetSizeParams) (t : WebContents) : gfx.Size :=
  match min_size p with Some s => s | None => min_auto_size_ t end.

Definition given_max (p : SetSizeParams) (t : WebContents) : gfx.Size :=
  match max_size p with Some s => s | None => max_auto_size_ t end.

(** Step 3: the normal size the call works with. *)
Definition given_normal (p : SetSizeParams) (t : WebContents) : gfx.Size :=
  match normal_size p with Some s => s | None => normal_size_ t end.

(** Step 4: the clamped pair. *)
Definition clamped_min (p : SetSizeParams) (t : WebContents) : gfx.Size :=
  gfx.mkSize (Z.min (gfx.width (given_min p t)) (gfx.width (given_max p t)))
             (Z.min (gfx.height (given_min p t)) (gfx.height (given_max p t))).

Definition clamped_max (p : SetSizeParams) (t : WebContents) : gfx.Size :=
  gfx.mkSize (Z.max (gfx.width (given_min p t)) (gfx.width (given_max p t)))
             (Z.max (gfx.height (given_min p t)) (gfx.height (given_max p t))).

Definition non_empty (s : gfx.Size) : bool :=
  negb (gfx.width s =? 0) && negb (gfx.height s =? 0).

(** Step 5: the resolved flag. *)
Definition resolved (p : SetSizeParams) (t : WebContents) : bool :=
  requested p t && non_empty (clamped_min p t) && non_empty (clamped_max p t).

(** Step 7: a half-given normal size takes its missing component from the
    default size; the target is the first non-empty of the normal size, the
    last guest size and the default size. *)
Definition filled (normal default : gfx.Size) : gfx.Size :=
  if negb (gfx.width normal =? 0) && (gfx.height normal =? 0) then
    gfx.mkSize (gfx.width normal) (gfx.height default)
  else if (gfx.width normal =? 0) && negb (gfx.height normal =? 0) then
    gfx.mkSize (gfx.width default) (gfx.height normal)
  else normal.

Definition target (normal guest default : gfx.Size) : gfx.Size :=
  if non_empty (filled normal default) then filled normal default
  else if non_empty guest then guest
  else default.

Definition well_formed (s : gfx.Size) : Prop :=
  0 <= gfx.width s /\ 0 <= gfx.height s.

(** The branch of [SetSize] taken when auto-size is being disabled, by
    itself; [SetSize_unfold] shows that [SetSize] runs exactly this. *)
Definition SetSize_disabling (engine : Engine) (rvh : handle) : M unit :=
  n <- read normal_size_ ;;
  when (negb (gfx.width n =? 0) && (gfx.height n =? 0))
    (d <- GetDefaultSize engine ;;
     write (fun t => set_normal_size_
                       (gfx.set_height (normal_size_ t) (gfx.height d)) t)) ;;
  n <- read normal_size_ ;;
  when ((gfx.width n =? 0) && negb (gfx.height n =? 0))
    (d <- GetDefaultSize engine ;;
     write (fun t => set_normal_size_
                       (gfx.set_width (normal_size_ t) (gfx.width d)) t)) ;;
  n <- read normal_size_ ;;
  g <- read guest_size_ ;;
  new_size <- (if negb (gfx.IsEmpty n) then ret n
               else if negb (gfx.IsEmpty g) then ret g
               else GetDefaultSize engine) ;;
  was <- read auto_size_enabled_ ;;
  (if was then
     perform (DisableAutoResize rvh new_size) ;;
     g <- read guest_size_ ;;
     GuestSizeChangedDueToAutoSize g new_size
   else
     gh <- read guest_host_ ;;
     gh <- deref gh ;;
     perform (SizeContents gh new_size)) ;;
  write (set_guest_size_ new_size).

(** The object once [SetSize] has stored the normal size and the clamped
    pair, before it asks for the render view host. *)
Definition after_clamp (p : SetSizeParams) (t : WebContents) : WebContents :=
  set_max_auto_size_ (clamped_max p t)
    (set_min_auto_size_ (clamped_min p t)
       (set_normal_size_ (given_normal p t) t)).

(** [m] leaves the part [f] of the object as it found it, whether it
    returns or crashes. *)
Definition preserves {A B} (f : WebContents -> B) (m : M A) : Prop :=
  forall w, f (this (world_of (m w))) = f (this w).

(** A guest for examples: created with [isGuest], guest host 2 set by the
    engine, surface 1 held by storage 0. *)
Definition guest0 : WebContents :=
  set_guest_host_ (Some 2%nat) (WebContents_options (Some 5) 0%nat 1%nat).

(** What the object observes and what it owns. *)
Definition surface (t : WebContents) : option handle * option handle :=
  (web_contents_ t, storage_ t).

Definition stored_pair (t : WebContents) : gfx.Size * gfx.Size :=
  (min_auto_size_ t, max_auto_size_ t).

(** The stored pair is ordered. *)
Definition min_le_max (w : World) : Prop :=
  gfx.le (min_auto_size_ (this w)) (max_auto_size_ (this w)).

(** ** Vocabulary for the further properties *)

(** What the size fields satisfy between calls: the stored pair is
    ordered, and while auto-size is on both stored sizes are non-empty and
    no normal size is kept. *)
Definition size_state_ok (t : WebContents) : Prop :=
  gfx.le (min_auto_size_ t) (max_auto_size_ t) /\
  (auto_size_enabled_ t = true ->
   non_empty (min_auto_size_ t) = true /\
   non_empty (max_auto_size_ t) = true /\
   normal_size_ t = gfx.zero).

Definition size_fields (t : WebContents)
  : gfx.Size * gfx.Size * gfx.Size * bool :=
  (min_auto_size_ t, max_auto_size_ t, normal_size_ t, auto_size_enabled_ t).

(** A request to the engine that makes sense: auto-resize is only ever
    asked for between two non-empty, ordered sizes. *)
Definition sound_request (e : Effect) : Prop :=
  match e with
  | EnableAutoResize _ mn mx =>
      non_empty mn = true /\ non_empty mx = true /\ gfx.le mn mx
  | _ => True
  end.

(** [m] only adds effects that satisfy [P] to the log. *)
Definition keeps (P : Effect -> Prop) {A} (m : M A) : Prop :=
  forall w, Forall P (log w) -> Forall P (log (world_of (m w))).

(** The size-changed events of a run of guest sizes reported one after
    the other, starting from the stored size [g]. *)
Fixpoint size_changes (g : gfx.Size) (sizes : list gfx.Size) : list Effect :=
  match sizes with
  | [] => []
  | s :: rest =>
      Emit "size-changed"
        [AInt (gfx.width g); AInt (gfx.height g);
         AInt (gfx.width s); AInt (gfx.height s)]
      :: size_changes s rest
  end.

(** The valid URLs a list gives with the favicon icon type. *)
Definition gives_favicon (urls : list FaviconURL) (u : GURL) : Prop :=
  is_valid u = true /\ In (mkFaviconURL u FAVICON) urls.

(** The default size of an object that is not a full-page plugin. *)
Definition plain_default_size : gfx.Size :=
  gfx.make kDefaultWidth kDefaultHeight.

(** ** The remaining delegate methods

    The methods below make requests the modelled ones above do not
    (to views, to the devtools storage, to dialog helpers, to native
    windows, to the navigation controller) and use two more data members.
    They run in a second monad of the same shape, whose log holds these
    requests next to the effects of the first. *)

Definition set_guest_opaque_ (v : bool) (t : WebContents) :=
  mkWebContents (web_contents_ t) (storage_ t) (guest_instance_id_ t) v
    (guest_host_ t) (embedder_web_contents_ t) (auto_size_enabled_ t)
    (is_full_page_plugin_ t) (min_auto_size_ t) (max_auto_size_ t)
    (normal_size_ t) (guest_size_ t).

(** Skia's [SK_ColorTRANSPARENT]. *)
Definition SK_ColorTRANSPARENT : Z := 0.

(** Arguments of the events these methods emit. *)
Inductive Argument : Type :=
| VInt (z : Z)
| VBool (b : bool)
| VString (s : string)
| VURL (u : GURL)
| VHeaders (d : list (string * string)).

(** [content::NavigationController::LoadURLParams], the fields
    [OpenURLFromTab] sets. *)
Module LoadURLParams.
Record t : Type := make {
  url : GURL;
  referrer : string;
  transition_type : Z;
  extra_headers : string;
  should_replace_current_entry : bool;
  is_renderer_initiated : bool;
  transferred_global_request_id : Z * Z;
  should_clear_history_list : bool
}.
End LoadURLParams.

(** [content::OpenURLParams], the fields [OpenURLFromTab] reads. *)
Module OpenURLParams.
Record t : Type := make {
  url : GURL;
  referrer : string;
  disposition : Z;
  transition : Z;
  extra_headers : string;
  should_replace_current_entry : bool;
  is_renderer_initiated : bool;
  transferred_global_request_id : Z * Z
}.
End OpenURLParams.

(** [content::ResourceRequestDetails], the fields
    [DidGetResourceResponseStart] reads; [headers] is the null-able
    [HttpResponseHeaders] as the lines [EnumerateHeaderLines] yields. *)
Module ResourceRequestDetails.
Record t : Type := make {
  headers : option (list (string * string));
  socket_address_IsEmpty : bool;
  url : GURL;
  original_url : GURL;
  http_response_code : Z;
  method : string;
  referrer : GURL
}.
End ResourceRequestDetails.

Inductive Request : Type :=
| Core (e : Effect)
| Raise (name : string) (args : list Argument)
| View_SetBackgroundColorToDefault (view : handle)
| View_SetBackgroundColor (view : handle) (color : Z)
| Storage_SetCanDock (storage : handle) (can_dock : bool)
| Storage_ShowDevTools (storage : handle)
| Storage_CloseDevTools (storage : handle)
| Storage_AttachTo (storage agent : handle)
| Agent_InspectElement (agent : handle) (x y : Z)
| New_AtomJavaScriptDialogManager
| New_WebDialogHelper (window : option handle)
| Helper_RunFileChooser (window : option handle) (guest params : handle)
| Helper_EnumerateDirectory (window : option handle) (guest : handle)
    (request_id : Z) (path : string)
| Window_SetHtmlApiFullscreen (window : handle) (enter : bool)
| Window_NotifyEnterHtmlFullScreen (window : handle)
| Window_NotifyLeaveHtmlFullScreen (window : handle)
| Rvh_WasResized (rvh : handle)
| Controller_LoadURLWithParams (wc : handle) (params : LoadURLParams.t).

(** The object with its two further members, and what it has sent.  A
    [WebDialogHelper] is named by the window it was built for. *)
Record Delegate : Type := mkDelegate {
  object : WebContents;
  dialog_manager_ : bool;
  web_dialog_helper_ : option (option handle);
  sent : list Request
}.

Definition new_delegate (t : WebContents) : Delegate :=
  mkDelegate t false None [].

Inductive Result (A : Type) : Type :=
| Returned (a : A) (d : Delegate)
| Faulted (d : Delegate).
Arguments Returned {A} a d.
Arguments Faulted {A} d.

Definition D (A : Type) : Type := Delegate -> Result A.

Definition retD {A} (a : A) : D A := fun d => Returned a d.

Definition bindD {A B} (m : D A) (k : A -> D B) : D B :=
  fun d => match m d with
           | Returned a d' => k a d'
           | Faulted d' => Faulted d'
           end.

Declare Scope dlg_scope.
Delimit Scope dlg_scope with dlg.
Notation "x <- m ;; k" := (bindD m (fun x => k))
  (at level 61, m at next level, right associativity) : dlg_scope.
Notation "m ;; k" := (bindD m (fun _ => k))
  (at level 61, right associativity) : dlg_scope.

Definition inspect {A} (f : Delegate -> A) : D A :=
  fun d => Returned (f d) d.

Definition update (f : Delegate -> Delegate) : D unit :=
  fun d => Returned tt (f d).

Definition peek {A} (f : WebContents -> A) : D A :=
  fun d => Returned (f (object d)) d.

Definition poke (f : WebContents -> WebContents) : D unit :=
  fun d => Returned tt
             (mkDelegate (f (object d)) (dialog_manager_ d)
                (web_dialog_helper_ d) (sent d)).

Definition send (r : Request) : D unit :=
  fun d => Returned tt
             (mkDelegate (object d) (dialog_manager_ d)
                (web_dialog_helper_ d) (sent d ++ [r])).

Definition derefD {A} (p : option A) : D A :=
  fun d => match p with Some a => Returned a d | None => Faulted d end.

(** A method of the first monad, run on the object. *)
Definition lift {A} (m : M A) : D A :=
  fun d =>
    let put w :=
      mkDelegate (this w) (dialog_manager_ d) (web_dialog_helper_ d)
        (sent d ++ map Core (log w)) in
    match m (mkWorld (object d) []) with
    | Done a w => Returned a (put w)
    | Crash w => Faulted (put w)
    end.

Definition delegate_of {A} (r : Result A) : Delegate :=
  match r with Returned _ d => d | Faulted d => d end.

(** A devtools agent host, with what the code asks of it:
    [GetType() == TYPE_SERVICE_WORKER]. *)
Record AgentHost : Type := mkAgentHost {
  agent : handle;
  is_service_worker : bool
}.

(** What these methods ask of the browser. *)
Record Browser : Type := mkBrowser {
  (** [rvh->GetView()] *)
  GetView : handle -> option handle;
  (** [WebViewManager::GetInfoForWebContents(guest, &info)]: the
      [info.embedder] when it returns true *)
  GetInfoForWebContents : handle -> option (option handle);
  (** [NativeWindow::FromWebContents] *)
  FromWebContents : option handle -> option handle;
  (** [content::DevToolsAgentHost::GetOrCreateAll()] *)
  GetOrCreateAll : list AgentHost;
  (** [content::DevToolsAgentHost::GetOrCreateFor] *)
  GetOrCreateFor : handle -> handle;
  (** [storage->GetWebContents()] *)
  InspectableWebContents_GetWebContents : handle -> handle;
  (** What [Emit] returns: whether a listener prevented the default. *)
  default_prevented : string -> list Argument -> bool
}.

(** [base::ToLowerASCII] and [base::StringToLowerASCII]. *)
Definition ToLowerASCII (c : Ascii.ascii) : Ascii.ascii :=
  let n := Ascii.N_of_ascii c in
  if ((65 <=? n) && (n <=? 90))%N then Ascii.ascii_of_N (n + 32) else c.

Fixpoint StringToLowerASCII (s : string) : string :=
  match s with
  | EmptyString => EmptyString
  | String c rest => String (ToLowerASCII c) (StringToLowerASCII rest)
  end.

(** [mate::Dictionary::Set] with a string value on a plain
    [v8::Object]; the list holds the object's own properties and only
    [Dictionary_Get] reads it.  An own property is overwritten if there
    and added if not, with one exception: the key [__proto__] is taken by
    the accessor the object inherits, whose setter ignores a value that
    is neither an object nor null, so a string stored under it leaves the
    object without any such property. *)
Fixpoint set_own_property (key value : string) (d : list (string * string))
  : list (string * string) :=
  match d with
  | [] => [(key, value)]
  | (k, v) :: rest =>
      if String.eqb k key then (key, value) :: rest
      else (k, v) :: set_own_property key value rest
  end.

Definition Dictionary_Set (key value : string) (d : list (string * string))
  : list (string * string) :=
  if String.eqb key "__proto__" then d else set_own_property key value d.


Fixpoint response_headers_loop (lines : list (string * string))
    (response_headers : list (string * string)) : list (string * string) :=
  match lines with
  | [] => response_headers
  | (key, value) :: rest =>
      response_headers_loop rest
        (Dictionary_Set (StringToLowerASCII key) (StringToLowerASCII value)
           response_headers)
  end.

Section Delegates.

Variable engine : Engine.
Variable browser : Browser.
(** [CURRENT_TAB] of [WindowOpenDisposition]. *)
Variable CURRENT_TAB : Z.

Local Open Scope dlg_scope.

Definition Emit_ (name : string) (args : list Argument) : D bool :=
  send (Raise name args) ;;
  retD (default_prevented browser name args).

(** Modelled from the spec: the header's [is_guest()], which the source
    file calls but does not define; the specification gives the guest
    instance id as "-1 if top-level/non-guest". *)
Definition is_guest : D bool :=
  id <- peek guest_instance_id_ ;;
  retD (negb (id =? -1)).

Definition SetAllowTransparency (allow : bool) : D unit :=
  opaque <- peek guest_opaque_ ;;
  if negb (Bool.eqb opaque allow) then retD tt
  else
    poke (set_guest_opaque_ (negb allow)) ;;
    wc <- peek web_contents_ ;;
    wc <- derefD wc ;;
    match GetView browser (GetRenderViewHost engine wc) with
    | None => retD tt
    | Some view =>
        opaque <- peek guest_opaque_ ;;
        if opaque then send (View_SetBackgroundColorToDefault view)
        else send (View_SetBackgroundColor view SK_ColorTRANSPARENT)
    end.

Definition RenderViewReady : D unit :=
  guest <- is_guest ;;
  if negb guest then retD tt
  else
    opaque <- peek guest_opaque_ ;;
    wc <- peek web_contents_ ;;
    wc <- derefD wc ;;
    view <- derefD (GetView browser (GetRenderViewHost engine wc)) ;;
    if opaque then send (View_SetBackgroundColorToDefault view)
    else send (View_SetBackgroundColor view SK_ColorTRANSPARENT).

Definition OpenDevTools : D unit :=
  st <- peek storage_ ;;
  st <- derefD st ;;
  send (Storage_SetCanDock st false) ;;
  send (Storage_ShowDevTools st).

Definition CloseDevTools : D unit :=
  st <- peek storage_ ;;
  st <- derefD st ;;
  send (Storage_CloseDevTools st).

Definition InspectElement (x y : Z) : D unit :=
  OpenDevTools ;;
  st <- peek storage_ ;;
  st <- derefD st ;;
  let agent :=
    GetOrCreateFor browser (InspectableWebContents_GetWebContents browser st) in
  send (Agent_InspectElement agent x y).

Fixpoint InspectServiceWorker_loop (hosts : list AgentHost) : D unit :=
  match hosts with
  | [] => retD tt
  | agent_host :: rest =>
      if is_service_worker agent_host then
        OpenDevTools ;;
        st <- peek storage_ ;;
        st <- derefD st ;;
        send (Storage_AttachTo st (agent agent_host))
      else InspectServiceWorker_loop rest
  end.

Definition InspectServiceWorker : D unit :=
  InspectServiceWorker_loop (GetOrCreateAll browser).

Definition GetWindowFromGuest (guest : handle) : option handle :=
  match GetInfoForWebContents browser guest with
  | Some embedder => FromWebContents browser embedder
  | None => None
  end.

(** Returns whether the pointer handed out is non-null. *)
Definition GetJavaScriptDialogManager (source : handle) : D bool :=
  manager <- inspect dialog_manager_ ;;
  (if negb manager then
     send New_AtomJavaScriptDialogManager ;;
     update (fun d => mkDelegate (object d) true (web_dialog_helper_ d)
                        (sent d))
   else retD tt) ;;
  inspect dialog_manager_.

Definition RunFileChooser (guest params : handle) : D unit :=
  helper <- inspect web_dialog_helper_ ;;
  (match helper with
   | None =>
       let window := GetWindowFromGuest guest in
       send (New_WebDialogHelper window) ;;
       update (fun d => mkDelegate (object d) (dialog_manager_ d)
                          (Some window) (sent d))
   | Some _ => retD tt
   end) ;;
  helper <- inspect web_dialog_helper_ ;;
  helper <- derefD helper ;;
  send (Helper_RunFileChooser helper guest params).

Definition EnumerateDirectory (guest : handle) (request_id : Z)
    (path : string) : D unit :=
  helper <- inspect web_dialog_helper_ ;;
  (match helper with
   | None =>
       let window := GetWindowFromGuest guest in
       send (New_WebDialogHelper window) ;;
       update (fun d => mkDelegate (object d) (dialog_manager_ d)
                          (Some window) (sent d))
   | Some _ => retD tt
   end) ;;
  helper <- inspect web_dialog_helper_ ;;
  helper <- derefD helper ;;
  send (Helper_EnumerateDirectory helper guest request_id path).

Definition EnterFullscreenModeForTab (source : handle) (origin : GURL)
  : D unit :=
  match GetWindowFromGuest source with
  | Some window =>
      send (Window_SetHtmlApiFullscreen window true) ;;
      send (Window_NotifyEnterHtmlFullScreen window) ;;
      send (Rvh_WasResized (GetRenderViewHost engine source)) ;;
      Emit_ "enter-html-full-screen" [] ;;
      retD tt
  | None => retD tt
  end.

Definition ExitFullscreenModeForTab (source : handle) : D unit :=
  match GetWindowFromGuest source with
  | Some window =>
      send (Window_SetHtmlApiFullscreen window false) ;;
      send (Window_NotifyLeaveHtmlFullScreen window) ;;
      send (Rvh_WasResized (GetRenderViewHost engine source)) ;;
      Emit_ "leave-html-full-screen" [] ;;
      retD tt
  | None => retD tt
  end.

Definition OpenURLFromTab (source : handle) (params : OpenURLParams.t)
  : D (option handle) :=
  if negb (OpenURLParams.disposition params =? CURRENT_TAB) then
    Emit_ "-new-window"
      [VURL (OpenURLParams.url params); VString "";
       VInt (OpenURLParams.disposition params)] ;;
    retD None
  else
    prevented <- Emit_ "will-navigate" [VURL (OpenURLParams.url params)] ;;
    if prevented then retD None
    else
      let load_url_params :=
        LoadURLParams.make
          (OpenURLParams.url params)
          (OpenURLParams.referrer params)
          (OpenURLParams.transition params)
          (OpenURLParams.extra_headers params)
          (OpenURLParams.should_replace_current_entry params)
          (OpenURLParams.is_renderer_initiated params)
          (OpenURLParams.transferred_global_request_id params)
          true in
      wc <- peek web_contents_ ;;
      wc <- derefD wc ;;
      send (Controller_LoadURLWithParams wc load_url_params) ;;
      wc <- peek web_contents_ ;;
      retD wc.


End Delegates.

(** Calls that go through the dialog members. *)
Inductive DialogCall : Type :=
| CallGetJavaScriptDialogManager (source : handle)
| CallRunFileChooser (guest params : handle)
| CallEnumerateDirectory (guest : handle) (request_id : Z) (path : string).

Definition dialog_guest (c : DialogCall) : option handle :=
  match c with
  | CallGetJavaScriptDialogManager _ => None
  | CallRunFileChooser guest _ => Some guest
  | CallEnumerateDirectory guest _ _ => Some guest
  end.

Definition invoke_dialog (browser : Browser) (c : DialogCall) : D unit :=
  match c with
  | CallGetJavaScriptDialogManager source =>
      bindD (GetJavaScriptDialogManager source) (fun _ => retD tt)
  | CallRunFileChooser guest params => RunFileChooser browser guest params
  | CallEnumerateDirectory guest request_id path =>
      EnumerateDirectory browser guest request_id path
  end.

Fixpoint invoke_dialogs (browser : Browser) (cs : list DialogCall) : D unit :=
  match cs with
  | [] => retD tt
  | c :: cs' => bindD (invoke_dialog browser c) (fun _ => invoke_dialogs browser cs')
  end.

(** The window a dialog request is shown on. *)
Definition helper_window (r : Request) : option (option handle) :=
  match r with
  | Helper_RunFileChooser window _ _ => Some window
  | Helper_EnumerateDirectory window _ _ _ => Some window
  | _ => None
  end.

Definition is_New_WebDialogHelper (r : Request) : bool :=
  match r with New_WebDialogHelper _ => true | _ => false end.

Definition is_New_AtomJavaScriptDialogManager (r : Request) : bool :=
  match r with New_AtomJavaScriptDialogManager => true | _ => false end.

Definition is_load (r : Request) : bool :=
  match r with Controller_LoadURLWithParams _ _ => true | _ => false end.


(** A browser for examples: every render view host has view 50, guest 1
    is embedded by 7 whose window is 70, agent hosts 30 (a page) and 31,
    32 (service workers), and no listener prevents anything. *)
Definition browser0 : Browser :=
  mkBrowser (fun _ => Some 50%nat)
    (fun guest => if Nat.eqb guest 1 then Some (Some 7%nat) else None)
    (fun e => match e with Some 7%nat => Some 70%nat | _ => None end)
    [mkAgentHost 30%nat false; mkAgentHost 31%nat true;
     mkAgentHost 32%nat true]
    (fun wc => (wc + 200)%nat) (fun st => (st + 1)%nat)
    (fun _ _ => false).

(** The request that makes a view's background match the setting. *)
Definition background_request (allow : bool) (view : handle) : Request :=
  if allow then View_SetBackgroundColor view SK_ColorTRANSPARENT
  else View_SetBackgroundColorToDefault view.

(** The guest of the first call that needs a dialog helper. *)
Fixpoint first_dialog_guest (cs : list DialogCall) : option handle :=
  match cs with
  | [] => None
  | c :: cs' =>
      match dialog_guest c with
      | Some guest => Some guest
      | None => first_dialog_guest cs'
      end
  end.

(** The window every dialog of a run is shown on: that of the helper
    already there, else that of the first guest that asks. *)
Definition shared_window (browser : Browser) (d : Delegate)
    (cs : list DialogCall) : option handle :=
  match web_dialog_helper_ d with
  | Some window => window
  | None =>
      match first_dialog_guest cs with
      | Some guest => GetWindowFromGuest browser guest
      | None => None
      end
  end.

Definition add_sent (d : Delegate) (rs : list Request) : Delegate :=
  mkDelegate (object d) (dialog_manager_ d) (web_dialog_helper_ d)
    (sent d ++ rs).

(** * Properties *)

(** ** The monad *)

Lemma bind_Done_inv {A B} (m : M A) (k : A -> M B) (w w' : World) (b : B) :
  bind m k w = Done b w' ->
  exists a w1, m w = Done a w1 /\ k a w1 = Done b w'.
Proof.
  unfold bind. destruct (m w) as [a w1|w1]; [eauto|discriminate].
Qed.

Lemma bind_Done {A B} (m : M A) (k : A -> M B) (w w1 : World) (a : A) :
  m w = Done a w1 -> bind m k w = k a w1.
Proof. unfold bind. now intros ->. Qed.

Lemma bind_Crash {A B} (m : M A) (k : A -> M B) (w w1 : World) :
  m w = Crash w1 -> bind m k w = Crash w1.
Proof. unfold bind. now intros ->. Qed.

Section Frame.

Context {B : Type} (f : WebContents -> B).

Lemma preserves_ret {A} (a : A) : preserves f (ret a).
Proof. now intros w. Qed.

Lemma preserves_read {A} (g : WebContents -> A) : preserves f (read g).
Proof. now intros w. Qed.

Lemma preserves_perform (e : Effect) : preserves f (perform e).
Proof. now intros w. Qed.

Lemma preserves_deref {A} (p : option A) : preserves f (deref p).
Proof. intros w. now destruct p. Qed.

Lemma preserves_write (g : WebContents -> WebContents) :
  (forall t, f (g t) = f t) -> preserves f (write g).
Proof. intros H w. apply H. Qed.

Lemma preserves_bind {A C} (m : M A) (k : A -> M C) :
  preserves f m -> (forall a, preserves f (k a)) -> preserves f (bind m k).
Proof.
  intros Hm Hk w. unfold bind. specialize (Hm w).
  destruct (m w) as [a w1|w1]; cbn in *; [|assumption].
  now rewrite Hk.
Qed.

Lemma preserves_when (b : bool) (m : M unit) :
  preserves f m -> preserves f (when b m).
Proof. intros Hm. destruct b; [assumption|apply preserves_ret]. Qed.

End Frame.

(** Walks through a method body, one construct at a time. *)
Ltac frame :=
  repeat (intros; cbv zeta;
          first [ apply preserves_bind
                | apply preserves_ret
                | apply preserves_read
                | apply preserves_perform
                | apply preserves_deref
                | apply preserves_when
                | apply preserves_write; intros []; reflexivity
                | match goal with
                  | |- preserves _ (match ?x with _ => _ end) => destruct x
                  end ]).

(** ** gfx::Size *)

Lemma SetToMin_min (a b : gfx.Size) :
  gfx.SetToMin a b =
  gfx.mkSize (Z.min (gfx.width a) (gfx.width b))
             (Z.min (gfx.height a) (gfx.height b)).
Proof.
  unfold gfx.SetToMin.
  destruct (Z.leb_spec (gfx.width a) (gfx.width b)),
           (Z.leb_spec (gfx.height a) (gfx.height b)); f_equal; lia.
Qed.

Lemma SetToMax_max (a b : gfx.Size) :
  gfx.SetToMax a b =
  gfx.mkSize (Z.max (gfx.width b) (gfx.width a))
             (Z.max (gfx.height b) (gfx.height a)).
Proof.
  unfold gfx.SetToMax. rewrite !Z.geb_leb.
  destruct (Z.leb_spec (gfx.width b) (gfx.width a)),
           (Z.leb_spec (gfx.height b) (gfx.height a)); f_equal; lia.
Qed.

Lemma IsEmpty_non_empty (s : gfx.Size) : negb (gfx.IsEmpty s) = non_empty s.
Proof. unfold gfx.IsEmpty, non_empty. now rewrite negb_orb. Qed.

Lemma clamped_le (p : SetSizeParams) (t : WebContents) :
  gfx.le (clamped_min p t) (clamped_max p t).
Proof. unfold gfx.le, clamped_min, clamped_max. cbn. lia. Qed.

(** ** SetSize *)

Section SetSizeFacts.

Variable engine : Engine.

(** The flag the code computes after the clamp is the resolved flag. *)
Lemma resolved_code (p : SetSizeParams) (t : WebContents) :
  requested p t &&
    (negb (gfx.IsEmpty (gfx.SetToMin (given_min p t) (given_max p t))) &&
     negb (gfx.IsEmpty (gfx.SetToMax (given_max p t) (given_min p t))))
  = resolved p t.
Proof.
  unfold resolved, clamped_min, clamped_max.
  now rewrite !IsEmpty_non_empty, SetToMin_min, SetToMax_max, andb_assoc.
Qed.

(** [SetSize], cut at its branches. *)
Lemma SetSize_unfold (p : SetSizeParams) (w : World) :
  SetSize engine p w =
  let w1 := mkWorld (after_clamp p (this w)) (log w) in
  match web_contents_ (this w) with
  | None => Crash w1
  | Some wc =>
      let rvh := GetRenderViewHost engine wc in
      if resolved p (this w) then
        Done tt
          (mkWorld (set_auto_size_enabled_ true
                      (set_normal_size_ gfx.zero (this w1)))
                   (log w ++ [EnableAutoResize rvh (clamped_min p (this w))
                                (clamped_max p (this w))]))
      else
        (SetSize_disabling engine rvh ;;
         write (set_auto_size_enabled_ false)) w1
  end.
Proof.
  rewrite <- resolved_code. unfold after_clamp, clamped_min, clamped_max.
  rewrite <- SetToMin_min, <- SetToMax_max.
  destruct w as [[wc st gi go gh em ae fp smn smx sn sg] lg].
  destruct p as [e mn mx n].
  unfold requested, given_min, given_max, given_normal.
  cbn [this log enable_auto_size min_size max_size normal_size
       web_contents_ min_auto_size_ max_auto_size_ normal_size_
       auto_size_enabled_].
  destruct wc; [|destruct n; reflexivity].
  match goal with |- context [if ?c then _ else _] => destruct c eqn:Hc end;
    unfold SetSize; cbn; destruct n; cbn; rewrite Hc; reflexivity.
Qed.

Lemma GetDefaultSize_frame (w w' : World) (d : gfx.Size) :
  GetDefaultSize engine w = Done d w ->
  is_full_page_plugin_ (this w') = is_full_page_plugin_ (this w) ->
  embedder_web_contents_ (this w') = embedder_web_contents_ (this w) ->
  GetDefaultSize engine w' = Done d w'.
Proof.
  unfold GetDefaultSize, bind, read, ret, deref. intros H E1 E2.
  revert H. rewrite E1.
  destruct (is_full_page_plugin_ (this w)); cbv beta; rewrite ?E2;
    [destruct (embedder_web_contents_ (this w))|]; congruence.
Qed.

(** The disabling branch, given that the default size can be had. *)
Lemma SetSize_disabling_spec (rvh : handle) (w : World) (d : gfx.Size) :
  GetDefaultSize engine w = Done d w ->
  well_formed d ->
  let t := this w in
  let new_size := target (normal_size_ t) (guest_size_ t) d in
  let t1 := set_normal_size_ (filled (normal_size_ t) d) t in
  let t2 := set_guest_size_ new_size t1 in
  SetSize_disabling engine rvh w =
  if auto_size_enabled_ t then
    Done tt (mkWorld t2
               (log w ++
                [DisableAutoResize rvh new_size;
                 Emit "size-changed"
                   [AInt (gfx.width (guest_size_ t));
                    AInt (gfx.height (guest_size_ t));
                    AInt (gfx.width new_size);
                    AInt (gfx.height new_size)]]))
  else
    match guest_host_ t with
    | Some gh => Done tt (mkWorld t2 (log w ++ [SizeContents gh new_size]))
    | None => Crash (mkWorld t1 (log w))
    end.
Proof.
  destruct w as [[wc st gi go gh em ae fp smn smx [nw nh] [gw gh']] lg].
  destruct d as [dw dh]. intros Hd [Hw Hh]. cbn in Hw, Hh.
  apply Z.ltb_ge in Hw, Hh.
  assert (Hd' : if fp then exists a, em = Some a /\
                    GetVisibleViewportSize engine a = gfx.mkSize dw dh
                else dw = 300 /\ dh = 300).
  { revert Hd. unfold GetDefaultSize, bind, read, ret, deref. cbn.
    destruct fp; [destruct em|]; cbn; intros Hd; try discriminate;
      inversion Hd; subst; eauto. }
  clear Hd.
  unfold SetSize_disabling, target, non_empty, filled, gfx.IsEmpty,
    GuestSizeChangedDueToAutoSize, GetDefaultSize.
  destruct fp; [destruct Hd' as (a & -> & Ha)|destruct Hd' as [-> ->]];
  destruct (nw =? 0) eqn:Enw, (nh =? 0) eqn:Enh,
           (gw =? 0) eqn:Egw, (gh' =? 0) eqn:Egh, ae;
    try destruct gh;
    try destruct (dw =? 0) eqn:Edw; try destruct (dh =? 0) eqn:Edh;
    repeat (progress
              (cbv -[Z.eqb Z.ltb app GetVisibleViewportSize
                     GetRenderViewHost];
               change (300 =? 0) with false;
               change (300 <? 0) with false;
               rewrite ?Enw, ?Enh, ?Hw, ?Hh, ?Edw, ?Edh, ?Egw, ?Egh, ?Ha));
    rewrite <- ?app_assoc; reflexivity.
Qed.

Lemma SetSize_disabling_frame {B} (f : WebContents -> B) (rvh : handle) :
  (forall v t, f (set_normal_size_ v t) = f t) ->
  (forall v t, f (set_guest_size_ v t) = f t) ->
  preserves f (SetSize_disabling engine rvh).
Proof.
  intros Hn Hg. unfold SetSize_disabling, GetDefaultSize,
    GuestSizeChangedDueToAutoSize.
  repeat (intros; cbv zeta;
          first [ apply preserves_bind | apply preserves_ret
                | apply preserves_read | apply preserves_perform
                | apply preserves_deref | apply preserves_when
                | apply preserves_write; intros; solve [apply Hn | apply Hg]
                | match goal with
                  | |- preserves _ (match ?x with _ => _ end) => destruct x
                  end ]).
Qed.

(** The fields of [after_clamp]. *)
Lemma after_clamp_fields (p : SetSizeParams) (t : WebContents) :
  let t1 := after_clamp p t in
  min_auto_size_ t1 = clamped_min p t /\
  max_auto_size_ t1 = clamped_max p t /\
  normal_size_ t1 = given_normal p t /\
  guest_size_ t1 = guest_size_ t /\
  auto_size_enabled_ t1 = auto_size_enabled_ t /\
  guest_host_ t1 = guest_host_ t /\
  is_full_page_plugin_ t1 = is_full_page_plugin_ t /\
  embedder_web_contents_ t1 = embedder_web_contents_ t /\
  web_contents_ t1 = web_contents_ t /\
  storage_ t1 = storage_ t.
Proof. destruct t. cbn. repeat split. Qed.

Lemma SetSize_disabling_pair (rvh : handle) :
  preserves stored_pair
    (SetSize_disabling engine rvh ;; write (set_auto_size_enabled_ false)).
Proof.
  apply preserves_bind.
  - apply SetSize_disabling_frame; now intros v [].
  - intros _. apply preserves_write. now intros [].
Qed.

(** Whatever the outcome, the stored pair is the clamped pair. *)
Lemma SetSize_pair (p : SetSizeParams) (w : World) :
  stored_pair (this (world_of (SetSize engine p w)))
  = (clamped_min p (this w), clamped_max p (this w)).
Proof.
  rewrite SetSize_unfold. cbv zeta.
  destruct (after_clamp_fields p (this w)) as (Hmin & Hmax & _).
  assert (Hp : stored_pair (after_clamp p (this w))
               = (clamped_min p (this w), clamped_max p (this w)))
    by (unfold stored_pair; congruence).
  destruct (web_contents_ (this w)) as [wc|]; [|exact Hp].
  destruct (resolved p (this w)).
  - rewrite <- Hp. now destruct (after_clamp p (this w)).
  - now rewrite SetSize_disabling_pair.
Qed.

(** What a returning [SetSize] leaves in the flag. *)
Lemma SetSize_Done_flag (p : SetSizeParams) (w w' : World) :
  SetSize engine p w = Done tt w' ->
  auto_size_enabled_ (this w') = resolved p (this w).
Proof.
  rewrite SetSize_unfold. cbv zeta.
  destruct (web_contents_ (this w)) as [wc|]; [|discriminate].
  destruct (resolved p (this w)).
  - now intros [= <-].
  - intros H. apply bind_Done_inv in H as ([] & w2 & _ & H2).
    injection H2 as <-. now destruct (this w2).
Qed.

(** The fixed-size path of [SetSize], in full. *)
Lemma SetSize_fixed_path (p : SetSizeParams) (w : World) (wc : handle)
    (d : gfx.Size) :
  web_contents_ (this w) = Some wc ->
  resolved p (this w) = false ->
  GetDefaultSize engine w = Done d w ->
  well_formed d ->
  let t := this w in
  let n := given_normal p t in
  let new_size := target n (guest_size_ t) d in
  let t1 := set_normal_size_ (filled n d) (after_clamp p t) in
  let t2 := set_auto_size_enabled_ false (set_guest_size_ new_size t1) in
  let rvh := GetRenderViewHost engine wc in
  SetSize engine p w =
  if auto_size_enabled_ t then
    Done tt (mkWorld t2
               (log w ++
                [DisableAutoResize rvh new_size;
                 Emit "size-changed"
                   [AInt (gfx.width (guest_size_ t));
                    AInt (gfx.height (guest_size_ t));
                    AInt (gfx.width new_size);
                    AInt (gfx.height new_size)]]))
  else
    match guest_host_ t with
    | Some gh => Done tt (mkWorld t2 (log w ++ [SizeContents gh new_size]))
    | None => Crash (mkWorld t1 (log w))
    end.
Proof.
  intros Hwc Hr Hd Hwf. cbv zeta.
  rewrite SetSize_unfold, Hwc, Hr. cbv zeta.
  destruct (after_clamp_fields p (this w))
    as (_ & _ & Hn & Hg & Ha & Hgh & Hfp & Hem & _).
  unfold bind at 1.
  rewrite (SetSize_disabling_spec _ (mkWorld (after_clamp p (this w)) (log w)) d);
    [|eapply GetDefaultSize_frame; eauto|assumption].
  cbn [this log]. rewrite Hn, Hg, Ha, Hgh.
  destruct (auto_size_enabled_ (this w)); [reflexivity|].
  destruct (guest_host_ (this w)); reflexivity.
Qed.

End SetSizeFacts.

(** ** The clamp *)

Lemma SetSize_min_le_max (engine : Engine) (p : SetSizeParams) (w : World) :
  min_le_max (world_of (SetSize engine p w)).
Proof.
  unfold min_le_max.
  assert (H := SetSize_pair engine p w). unfold stored_pair in H.
  injection H as -> ->. apply clamped_le.
Qed.

(** C3: For every sequence of SetSize calls, with min and max given,
    omitted or inverted at will, the world reached after each call has its
    stored minimum below its stored maximum in both components. *)
Theorem SetSize_keeps_min_below_max (engine : Engine)
    (ps : list SetSizeParams) (w : World) :
  Forall min_le_max (SetSize_trace engine ps w).
Proof.
  revert w. induction ps as [|p ps IH]; intros w; cbn [SetSize_trace];
    [constructor|].
  assert (H := SetSize_min_le_max engine p w).
  destruct (SetSize engine p w) as [[] w'|w']; cbn in H.
  - constructor; [assumption|apply IH].
  - constructor; [assumption|constructor].
Qed.

(** An inverted pair, run: each size is clamped against the other as the
    caller gave it, so min (50,50) and max (10,10) are stored as (10,10)
    and (50,50). *)
Example SetSize_inverted_pair :
  SetSize engine0
    (mkSetSizeParams (Some true) (Some (gfx.make 50 50))
       (Some (gfx.make 10 10)) None)
    (fresh guest0)
  = Done tt
      (mkWorld
         (set_auto_size_enabled_ true
            (set_max_auto_size_ (gfx.mkSize 50 50)
               (set_min_auto_size_ (gfx.mkSize 10 10) guest0)))
         [EnableAutoResize 101%nat (gfx.mkSize 10 10) (gfx.mkSize 50 50)]).
Proof. reflexivity. Qed.

(** ** The auto-size flag *)

(** C1, as stated, fails: options with a non-empty min and max but no
    enableAutoSize key, given to a guest whose flag is off, leave the flag
    off although both clamped sizes are non-empty. *)
Lemma SetSize_flag_absent_counterexample :
  let options :=
    v8.Object [("min", v8.size 10 10); ("max", v8.size 20 20)] in
  match SetSize engine0 (snd (v8.SetSizeParams_FromV8 options))
          (fresh guest0) with
  | Done _ w' =>
      non_empty (min_auto_size_ (this w')) = true /\
      non_empty (max_auto_size_ (this w')) = true /\
      auto_size_enabled_ (this w') = false
  | Crash _ => False
  end.
Proof. vm_compute. repeat split. Qed.

(** C1, amended: After a SetSize call returns, auto-size is enabled
    exactly when the request in force (the parsed enable_auto_size if the
    parameters carry one, else the stored flag) is set and both clamped
    sizes are non-empty. *)
Theorem SetSize_auto_size_enabled (engine : Engine) (p : SetSizeParams)
    (w w' : World) :
  SetSize engine p w = Done tt w' ->
  auto_size_enabled_ (this w')
  = requested p (this w)
    && (non_empty (min_auto_size_ (this w'))
        && non_empty (max_auto_size_ (this w'))).
Proof.
  intros H. rewrite (SetSize_Done_flag engine p w w' H).
  assert (Hp := SetSize_pair engine p w). rewrite H in Hp.
  unfold stored_pair in Hp. cbn in Hp. injection Hp as -> ->.
  unfold resolved. now rewrite andb_assoc.
Qed.

Lemma SetSize_auto_size_enabled_witness :
  let sizes := mkSetSizeParams None (Some (gfx.make 10 10))
                 (Some (gfx.make 20 20)) None in
  let asked := mkSetSizeParams (Some true) (Some (gfx.make 10 10))
                 (Some (gfx.make 20 20)) None in
  let empty := mkSetSizeParams (Some true) (Some (gfx.make 0 10))
                 (Some (gfx.make 20 20)) None in
  (exists w', SetSize engine0 sizes (fresh guest0) = Done tt w' /\
              auto_size_enabled_ (this w') = false) /\
  (exists w', SetSize engine0 asked (fresh guest0) = Done tt w' /\
              auto_size_enabled_ (this w') = true) /\
  (exists w', SetSize engine0 empty (fresh guest0) = Done tt w' /\
              auto_size_enabled_ (this w') = false).
Proof.
  intros sizes asked empty. split; [|split].
  - pose (w' := world_of (SetSize engine0 sizes (fresh guest0))).
    assert (H : SetSize engine0 sizes (fresh guest0) = Done tt w')
      by reflexivity.
    exists w'. split; [exact H|].
    rewrite (SetSize_auto_size_enabled engine0 sizes (fresh guest0) w' H).
    reflexivity.
  - pose (w' := world_of (SetSize engine0 asked (fresh guest0))).
    assert (H : SetSize engine0 asked (fresh guest0) = Done tt w')
      by reflexivity.
    exists w'. split; [exact H|].
    rewrite (SetSize_auto_size_enabled engine0 asked (fresh guest0) w' H).
    reflexivity.
  - pose (w' := world_of (SetSize engine0 empty (fresh guest0))).
    assert (H : SetSize engine0 empty (fresh guest0) = Done tt w')
      by reflexivity.
    exists w'. split; [exact H|].
    rewrite (SetSize_auto_size_enabled engine0 empty (fresh guest0) w' H).
    reflexivity.
Defined.

(** ** The converter *)

(** C10: When the options carry an enableAutoSize that converts to bool,
    the converter stores true in enable_auto_size whatever the caller's
    value was; options that differ only in that value, false against
    true, are parsed alike and SetSize does the same on both. *)
Theorem FromV8_enableAutoSize_is_true
    (V D : Type) (conv : V -> option D)
    (get_bool : D -> string -> option bool)
    (get_size : D -> string -> option gfx.Size) :
  let parse := FromV8 V D conv get_bool get_size in
  (forall val d b out,
      conv val = Some d ->
      get_bool d "enableAutoSize" = Some b ->
      fst (parse val out) = true /\
      enable_auto_size (snd (parse val out)) = Some true)
  /\
  (forall val1 val2 d1 d2 out,
      conv val1 = Some d1 ->
      conv val2 = Some d2 ->
      get_bool d1 "enableAutoSize" = Some false ->
      get_bool d2 "enableAutoSize" = Some true ->
      (forall key, get_size d1 key = get_size d2 key) ->
      parse val1 out = parse val2 out /\
      forall engine w,
        SetSize engine (snd (parse val1 out)) w
        = SetSize engine (snd (parse val2 out)) w).
Proof.
  cbv zeta. split.
  - intros val d b out Hc Hb. unfold FromV8. rewrite Hc, Hb.
    now destruct (get_size d "min"), (get_size d "max"),
                 (get_size d "normal").
  - intros val1 val2 d1 d2 out Hc1 Hc2 Hb1 Hb2 Hs.
    assert (E : FromV8 V D conv get_bool get_size val1 out
                = FromV8 V D conv get_bool get_size val2 out).
    { unfold FromV8. now rewrite Hc1, Hc2, Hb1, Hb2, !Hs. }
    split; [exact E|]. intros engine w. now rewrite E.
Qed.

Lemma FromV8_enableAutoSize_is_true_witness :
  let off := v8.Object [("enableAutoSize", v8.Boolean false);
                        ("max", v8.size 640 480)] in
  let on := v8.Object [("enableAutoSize", v8.Boolean true);
                       ("max", v8.size 640 480)] in
  v8.SetSizeParams_FromV8 off
  = (true, mkSetSizeParams (Some true) None (Some (gfx.mkSize 640 480)) None)
  /\ v8.SetSizeParams_FromV8 off = v8.SetSizeParams_FromV8 on.
Proof.
  intros off on.
  destruct (FromV8_enableAutoSize_is_true v8.Value v8.Dictionary
              v8.ToDictionary v8.Get_bool v8.Get_Size) as [H1 H2].
  split.
  - destruct (H1 off [("enableAutoSize", v8.Boolean false);
                      ("max", v8.size 640 480)]
                false SetSizeParams_default eq_refl eq_refl) as [_ _].
    reflexivity.
  - refine (proj1 (H2 off on
             [("enableAutoSize", v8.Boolean false); ("max", v8.size 640 480)]
             [("enableAutoSize", v8.Boolean true); ("max", v8.size 640 480)]
             SetSizeParams_default eq_refl eq_refl eq_refl eq_refl _)).
    intros key. unfold v8.Get_Size. cbn [v8.Get].
    destruct (String.eqb "enableAutoSize" key); reflexivity.
Defined.

(** ** The fixed-size path *)

(** C4: On the fixed-size path (the call resolves to auto-size off) the
    call returns, provided the object observes a surface, its default size
    can be had and, when auto-size was already off, a guest host is set.
    The normal size it works with has a missing component filled from the
    default size; the target is that normal size if non-empty, else the
    last guest size if non-empty, else the default size; the target is
    requested from the engine and stored as the guest size.  In
    particular, a normal size of (400,0) given to a guest with auto-size
    off and the default size of 300 by 300 makes the target (400,300). *)
Theorem SetSize_fixed_target :
  (forall engine p w wc d,
      web_contents_ (this w) = Some wc ->
      resolved p (this w) = false ->
      GetDefaultSize engine w = Done d w ->
      well_formed d ->
      auto_size_enabled_ (this w) = true \/ guest_host_ (this w) <> None ->
      let new_size :=
        target (given_normal p (this w)) (guest_size_ (this w)) d in
      exists w',
        SetSize engine p w = Done tt w' /\
        normal_size_ (this w') = filled (given_normal p (this w)) d /\
        guest_size_ (this w') = new_size /\
        auto_size_enabled_ (this w') = false /\
        exists request,
          log w' = log w ++ request /\
          match guest_host_ (this w) with
          | Some gh =>
              auto_size_enabled_ (this w) = false ->
              request = [SizeContents gh new_size]
          | None => True
          end /\
          (auto_size_enabled_ (this w) = true ->
           request =
           [DisableAutoResize (GetRenderViewHost engine wc) new_size;
            Emit "size-changed"
              [AInt (gfx.width (guest_size_ (this w)));
               AInt (gfx.height (guest_size_ (this w)));
               AInt (gfx.width new_size); AInt (gfx.height new_size)]]))
  /\
  (forall engine w wc gh,
      web_contents_ (this w) = Some wc ->
      guest_host_ (this w) = Some gh ->
      auto_size_enabled_ (this w) = false ->
      is_full_page_plugin_ (this w) = false ->
      exists w',
        SetSize engine
          (mkSetSizeParams None None None (Some (gfx.make 400 0))) w
        = Done tt w' /\
        guest_size_ (this w') = gfx.mkSize 400 300 /\
        log w' = log w ++ [SizeContents gh (gfx.mkSize 400 300)]).
Proof.
  assert (G : forall engine p w wc d,
      web_contents_ (this w) = Some wc ->
      resolved p (this w) = false ->
      GetDefaultSize engine w = Done d w ->
      well_formed d ->
      auto_size_enabled_ (this w) = true \/ guest_host_ (this w) <> None ->
      let new_size :=
        target (given_normal p (this w)) (guest_size_ (this w)) d in
      exists w',
        SetSize engine p w = Done tt w' /\
        normal_size_ (this w') = filled (given_normal p (this w)) d /\
        guest_size_ (this w') = new_size /\
        auto_size_enabled_ (this w') = false /\
        exists request,
          log w' = log w ++ request /\
          match guest_host_ (this w) with
          | Some gh =>
              auto_size_enabled_ (this w) = false ->
              request = [SizeContents gh new_size]
          | None => True
          end /\
          (auto_size_enabled_ (this w) = true ->
           request =
           [DisableAutoResize (GetRenderViewHost engine wc) new_size;
            Emit "size-changed"
              [AInt (gfx.width (guest_size_ (this w)));
               AInt (gfx.height (guest_size_ (this w)));
               AInt (gfx.width new_size); AInt (gfx.height new_size)]])).
  { intros engine p w wc d Hwc Hr Hd Hwf Hgh. cbv zeta.
    rewrite (SetSize_fixed_path engine p w wc d Hwc Hr Hd Hwf). cbv zeta.
    destruct (auto_size_enabled_ (this w)) eqn:Ha.
    - eexists. split; [reflexivity|]. cbn [this log].
      destruct (after_clamp p (this w)). cbn.
      repeat split. eexists. split; [reflexivity|].
      split; [|reflexivity]. destruct (guest_host_ (this w)); [|exact I].
      discriminate.
    - destruct (guest_host_ (this w)) as [gh|] eqn:Eg;
        [|destruct Hgh; congruence].
      eexists. split; [reflexivity|]. cbn [this log].
      destruct (after_clamp p (this w)). cbn.
      repeat split. eexists. split; [reflexivity|].
      split; [reflexivity|discriminate]. }
  split; [exact G|].
  intros engine w wc gh Hwc Hgh Ha Hfp.
  destruct (G engine (mkSetSizeParams None None None (Some (gfx.make 400 0)))
              w wc (gfx.mkSize 300 300) Hwc)
    as (w' & H & _ & Hg & _ & request & Hl & Hr & _).
  - unfold resolved, requested. cbn. now rewrite Ha.
  - unfold GetDefaultSize, bind, read, ret. now rewrite Hfp.
  - split; cbn; lia.
  - right. congruence.
  - exists w'. split; [exact H|]. split; [exact Hg|].
    rewrite Hgh in Hr. now rewrite Hl, (Hr Ha).
Qed.

Lemma SetSize_fixed_target_witness :
  let p := mkSetSizeParams None None None (Some (gfx.make 400 0)) in
  exists w',
    SetSize engine0 p (fresh guest0) = Done tt w' /\
    guest_size_ (this w') = gfx.mkSize 400 300 /\
    log w' = [SizeContents 2%nat (gfx.mkSize 400 300)].
Proof.
  intros p. destruct SetSize_fixed_target as [H1 H2].
  destruct (H1 engine0 p (fresh guest0) 1%nat (gfx.mkSize 300 300))
    as (w' & H & _ & Hg & _ & _).
  - reflexivity.
  - reflexivity.
  - reflexivity.
  - split; cbn; lia.
  - right. discriminate.
  - destruct (H2 engine0 (fresh guest0) 1%nat 2%nat)
      as (w2 & H' & Hg' & Hl'); try reflexivity.
    exists w2. split; [exact H'|]. split; [exact Hg'|exact Hl'].
Defined.

(** ** Enabling auto-size forgets the normal size *)

(** C7, as stated, fails: a normal size of 640 by 480 is applied, then
    auto-size is enabled, which zeroes the stored normal size, then a call
    without a normal size resolves to the fixed-size path.  Its target is
    the last guest size, and that is the 640 by 480 of the first call: the
    earlier normal size comes back through the guest size. *)
Lemma SetSize_stale_normal_counterexample :
  let fixed := mkSetSizeParams None None None (Some (gfx.make 640 480)) in
  let enable := mkSetSizeParams (Some true) (Some (gfx.make 10 10))
                  (Some (gfx.make 20 20)) None in
  let off := mkSetSizeParams None (Some (gfx.make 0 0)) None None in
  exists w1 w2 w3,
    SetSize engine0 fixed (fresh guest0) = Done tt w1 /\
    SetSize engine0 enable w1 = Done tt w2 /\
    auto_size_enabled_ (this w2) = true /\
    normal_size_ (this w2) = gfx.zero /\
    normal_size off = None /\
    SetSize engine0 off w2 = Done tt w3 /\
    auto_size_enabled_ (this w3) = false /\
    guest_size_ (this w3) = gfx.mkSize 640 480 /\
    log w3 =
    [SizeContents 2%nat (gfx.mkSize 640 480);
     EnableAutoResize 101%nat (gfx.mkSize 10 10) (gfx.mkSize 20 20);
     DisableAutoResize 101%nat (gfx.mkSize 640 480);
     Emit "size-changed" [AInt 640; AInt 480; AInt 640; AInt 480]].
Proof. vm_compute. do 3 eexists. repeat split. Qed.

(** C7, amended: When a SetSize call returns with auto-size enabled, the
    stored normal size is zero; a following SetSize call that gives no
    normal size and takes the fixed-size path returns with the last guest
    size as its target if that is non-empty, else the default size, and
    with the normal size still zero.  The last guest size may be a normal
    size applied earlier. *)
Theorem SetSize_enabling_resets_normal_size
    (engine : Engine) (p : SetSizeParams) (w w' : World) :
  SetSize engine p w = Done tt w' ->
  auto_size_enabled_ (this w') = true ->
  normal_size_ (this w') = gfx.zero /\
  forall p2 d,
    normal_size p2 = None ->
    resolved p2 (this w') = false ->
    GetDefaultSize engine w' = Done d w' ->
    well_formed d ->
    exists w'',
      SetSize engine p2 w' = Done tt w'' /\
      guest_size_ (this w'')
      = (if non_empty (guest_size_ (this w')) then guest_size_ (this w')
         else d) /\
      normal_size_ (this w'') = gfx.zero.
Proof.
  intros H Ha.
  assert (Hr := SetSize_Done_flag engine p w w' H). rewrite Ha in Hr.
  assert (Hn : normal_size_ (this w') = gfx.zero /\
               exists wc, web_contents_ (this w') = Some wc).
  { revert H. rewrite SetSize_unfold. cbv zeta.
    destruct (after_clamp_fields p (this w))
      as (_ & _ & _ & _ & _ & _ & _ & _ & Hwc & _).
    destruct (web_contents_ (this w)) as [wc|] eqn:E; [|discriminate].
    rewrite <- Hr. intros [= <-]. cbn [this]. revert Hwc.
    destruct (after_clamp p (this w)). cbn. eauto. }
  destruct Hn as [Hn [wc Hwc]]. split; [exact Hn|].
  intros p2 d Hp2 Hr2 Hd Hwf.
  rewrite (SetSize_fixed_path engine p2 w' wc d Hwc Hr2 Hd Hwf). cbv zeta.
  rewrite Ha. eexists. split; [reflexivity|]. cbn [this].
  unfold given_normal. rewrite Hp2, Hn.
  destruct (after_clamp p2 (this w')). cbn. unfold target, filled. cbn.
  split; reflexivity.
Qed.

Lemma SetSize_enabling_resets_normal_size_witness :
  let fixed := mkSetSizeParams None None None (Some (gfx.make 640 480)) in
  let enable := mkSetSizeParams (Some true) (Some (gfx.make 10 10))
                  (Some (gfx.make 20 20)) (Some (gfx.make 7 7)) in
  let off := mkSetSizeParams None (Some (gfx.make 0 0)) None None in
  exists w1 w2 w3,
    SetSize engine0 fixed (fresh guest0) = Done tt w1 /\
    SetSize engine0 enable w1 = Done tt w2 /\
    normal_size_ (this w2) = gfx.zero /\
    SetSize engine0 off w2 = Done tt w3 /\
    guest_size_ (this w3) = guest_size_ (this w1) /\
    normal_size_ (this w3) = gfx.zero.
Proof.
  intros fixed enable off.
  pose (w1 := world_of (SetSize engine0 fixed (fresh guest0))).
  pose (w2 := world_of (SetSize engine0 enable w1)).
  assert (H1 : SetSize engine0 fixed (fresh guest0) = Done tt w1)
    by (vm_compute; reflexivity).
  assert (H2 : SetSize engine0 enable w1 = Done tt w2)
    by (vm_compute; reflexivity).
  assert (Ha : auto_size_enabled_ (this w2) = true)
    by (vm_compute; reflexivity).
  destruct (SetSize_enabling_resets_normal_size engine0 enable w1 w2 H2 Ha)
    as [Hn Hnext].
  destruct (Hnext off (gfx.mkSize 300 300)) as (w3 & H3 & Hg & Hn3).
  - reflexivity.
  - vm_compute; reflexivity.
  - vm_compute; reflexivity.
  - split; cbn; lia.
  - exists w1, w2, w3. split; [exact H1|]. split; [exact H2|].
    split; [exact Hn|]. split; [exact H3|]. split; [|exact Hn3].
    rewrite Hg. vm_compute; reflexivity.
Defined.

(** ** Teardown *)

Section DestroyFacts.

Variable engine : Engine.

Lemma Destroy_released (w : World) :
  storage_ (this w) = None -> Destroy engine w = Done tt w.
Proof. unfold Destroy, bind, read. now intros ->. Qed.

Lemma Destroy_owned (w : World) (st wc gh : handle) :
  storage_ (this w) = Some st ->
  web_contents_ (this w) = Some wc ->
  guest_host_ (this w) = Some gh ->
  Destroy engine w =
  Done tt
    (mkWorld
       (set_storage_ None
          (set_web_contents_ None (set_guest_host_ None (this w))))
       (log w ++
        [Emit "render-view-deleted"
           [AInt (GetProcessID engine (GetRenderViewHost engine wc));
            AInt (GetRoutingID engine (GetRenderViewHost engine wc))];
         Emit "destroyed" [];
         WillDestroy gh])).
Proof.
  destruct w as [[wc' st' gi go gh' em ae fp smn smx sn sg] lg].
  cbn. intros -> -> ->. unfold Destroy. cbn.
  now rewrite <- !app_assoc.
Qed.

(** Without a guest host the first call goes through a null pointer,
    after it has emitted its events. *)
Lemma Destroy_without_guest_host (w : World) (st wc : handle) :
  storage_ (this w) = Some st ->
  web_contents_ (this w) = Some wc ->
  guest_host_ (this w) = None ->
  Destroy engine w =
  Crash
    (mkWorld (this w)
       (log w ++
        [Emit "render-view-deleted"
           [AInt (GetProcessID engine (GetRenderViewHost engine wc));
            AInt (GetRoutingID engine (GetRenderViewHost engine wc))];
         Emit "destroyed" []])).
Proof.
  destruct w as [[wc' st' gi go gh' em ae fp smn smx sn sg] lg].
  cbn. intros -> -> ->. unfold Destroy. cbn.
  now rewrite <- !app_assoc.
Qed.

Lemma Destroy_Done_inv (w w' : World) :
  Destroy engine w = Done tt w' ->
  storage_ (this w) <> None ->
  web_contents_ (this w') = None /\ storage_ (this w') = None.
Proof.
  destruct w as [[wc st gi go gh em ae fp smn smx sn sg] lg].
  unfold Destroy. cbn. destruct st; [|congruence].
  destruct wc; cbn; [|discriminate].
  destruct gh; cbn; [|discriminate].
  intros [= <-] _. cbn. auto.
Qed.

Lemma times_released (n : nat) (w : World) :
  storage_ (this w) = None -> times n (Destroy engine) w = Done tt w.
Proof.
  intros H. induction n as [|n IH]; [reflexivity|].
  cbn [times]. now rewrite (bind_Done _ _ _ _ _ (Destroy_released w H)).
Qed.

End DestroyFacts.

Lemma emitted_app (name : string) (l1 l2 : list Effect) :
  emitted name (l1 ++ l2) = (emitted name l1 + emitted name l2)%nat.
Proof. unfold emitted. now rewrite filter_app, length_app. Qed.

(** C2, as stated, fails: an object made by CreateFrom owns no surface,
    so two Destroy calls on it return without emitting destroyed at
    all. *)
Lemma Destroy_wrapping_counterexample :
  match times 2 (Destroy engine0) (fresh (WebContents_from (Some 1%nat))) with
  | Done _ w' => emitted "destroyed" (log w') = 0%nat
  | Crash _ => False
  end.
Proof. reflexivity. Qed.

(** A non-guest made by Create owns a surface but has no guest host: its
    first Destroy emits destroyed and then crashes. *)
Example Destroy_non_guest :
  Destroy engine0 (fresh (WebContents_options None 0%nat 1%nat))
  = Crash (mkWorld (WebContents_options None 0%nat 1%nat)
             [Emit "render-view-deleted" [AInt 7; AInt 1];
              Emit "destroyed" []]).
Proof. reflexivity. Qed.

(** C2, amended: On an object that owns its surface and has a guest
    host, any number n + 1 of Destroy calls returns, does what the first
    call alone does, and emits destroyed exactly once; every call after
    the first changes nothing.  On an object that owns no surface, every
    Destroy call returns and changes nothing. *)
Theorem Destroy_idempotent (engine : Engine) (w : World) (n : nat) :
  (forall st wc gh,
      storage_ (this w) = Some st ->
      web_contents_ (this w) = Some wc ->
      guest_host_ (this w) = Some gh ->
      exists w',
        Destroy engine w = Done tt w' /\
        times (S n) (Destroy engine) w = Done tt w' /\
        emitted "destroyed" (log w') = S (emitted "destroyed" (log w)) /\
        Destroy engine w' = Done tt w')
  /\
  (storage_ (this w) = None ->
   times n (Destroy engine) w = Done tt w).
Proof.
  split; [|apply times_released].
  intros st wc gh Hst Hwc Hgh.
  rewrite (Destroy_owned engine w st wc gh Hst Hwc Hgh).
  eexists. split; [reflexivity|].
  assert (Hrel : forall t l,
             storage_ (this (mkWorld (set_storage_ None t) l)) = None)
    by now intros [].
  split; [|split].
  - cbn [times].
    rewrite (bind_Done _ _ _ _ _ (Destroy_owned engine w st wc gh Hst Hwc Hgh)).
    apply times_released, Hrel.
  - cbn [log]. rewrite emitted_app. cbn. lia.
  - apply Destroy_released, Hrel.
Qed.

Lemma Destroy_idempotent_witness :
  (exists w',
      times 3 (Destroy engine0) (fresh guest0) = Done tt w' /\
      log w' = [Emit "render-view-deleted" [AInt 7; AInt 1];
                Emit "destroyed" []; WillDestroy 2%nat]) /\
  times 3 (Destroy engine0) (fresh (WebContents_from (Some 1%nat)))
  = Done tt (fresh (WebContents_from (Some 1%nat))).
Proof.
  split.
  - destruct (proj1 (Destroy_idempotent engine0 (fresh guest0) 2)
                0%nat 1%nat 2%nat eq_refl eq_refl eq_refl)
      as (w' & H1 & Hn & _).
    exists w'. split; [exact Hn|].
    assert (E : Done tt w' = Destroy engine0 (fresh guest0)) by now rewrite H1.
    injection E as ->. reflexivity.
  - apply (proj2 (Destroy_idempotent engine0
                    (fresh (WebContents_from (Some 1%nat))) 3)).
    reflexivity.
Defined.

(** ** IsAlive *)

Section AliveFacts.

Variable engine : Engine.

Lemma SetSize_frame {B} (f : WebContents -> B) (p : SetSizeParams) :
  (forall v t, f (set_normal_size_ v t) = f t) ->
  (forall v t, f (set_guest_size_ v t) = f t) ->
  (forall v t, f (set_min_auto_size_ v t) = f t) ->
  (forall v t, f (set_max_auto_size_ v t) = f t) ->
  (forall v t, f (set_auto_size_enabled_ v t) = f t) ->
  preserves f (SetSize engine p).
Proof.
  intros Hn Hg Hmin Hmax Ha w. rewrite SetSize_unfold. cbv zeta.
  assert (Hc : f (after_clamp p (this w)) = f (this w))
    by (unfold after_clamp; now rewrite Hmax, Hmin, Hn).
  destruct (web_contents_ (this w)); [|exact Hc].
  destruct (resolved p (this w)).
  - cbn. now rewrite Ha, Hn.
  - rewrite <- Hc.
    apply (preserves_bind f _ _ (SetSize_disabling_frame engine f _ Hn Hg)
             (fun _ => preserves_write f _ (Ha false))
             (mkWorld (after_clamp p (this w)) (log w))).
Qed.

Lemma invoke_surface (c : Call) :
  is_Destroy c = false -> preserves surface (invoke engine c).
Proof.
  destruct c; cbn [is_Destroy invoke]; intros H; try discriminate.
  - apply SetSize_frame; now intros v [].
  - unfold GuestSizeChanged, GuestSizeChangedDueToAutoSize. frame.
  - unfold SetGuestHost. frame.
  - unfold WillAttach. frame.
  - unfold DidAttach. frame.
  - unfold DidUpdateFaviconURL. frame.
Qed.

Lemma invoke_all_released (cs : list Call) (w w' : World) :
  invoke_all engine cs w = Done tt w' ->
  storage_ (this w) = None ->
  surface (this w') = surface (this w).
Proof.
  revert w. induction cs as [|c cs IH]; intros w H Hst.
  - now injection H as <-.
  - cbn [invoke_all] in H.
    apply bind_Done_inv in H as ([] & w1 & H1 & H2).
    assert (E : surface (this w1) = surface (this w)).
    { destruct (is_Destroy c) eqn:Ec.
      - destruct c; try discriminate. cbn [invoke] in H1.
        rewrite (Destroy_released engine w Hst) in H1. now injection H1 as <-.
      - assert (Hp := invoke_surface c Ec w). now rewrite H1 in Hp. }
    rewrite <- E. apply IH; [exact H2|].
    unfold surface in E. congruence.
Qed.

Lemma invoke_all_owned (cs : list Call) (w w' : World) :
  invoke_all engine cs w = Done tt w' ->
  storage_ (this w) <> None ->
  surface (this w')
  = if existsb is_Destroy cs then (None, None) else surface (this w).
Proof.
  revert w. induction cs as [|c cs IH]; intros w H Hst.
  - now injection H as <-.
  - cbn [invoke_all] in H.
    apply bind_Done_inv in H as ([] & w1 & H1 & H2).
    cbn [existsb]. destruct (is_Destroy c) eqn:Ec; cbn [orb].
    + destruct c; try discriminate. cbn [invoke] in H1.
      destruct (Destroy_Done_inv engine w w1 H1 Hst) as [Hwc Hs].
      rewrite (invoke_all_released cs w1 w' H2 Hs).
      unfold surface. now rewrite Hwc, Hs.
    + assert (Hp := invoke_surface c Ec w). rewrite H1 in Hp. cbn in Hp.
      rewrite (IH w1 H2); [now rewrite Hp|].
      unfold surface in Hp. congruence.
Qed.

End AliveFacts.

(** C9, as stated, fails: an object made by CreateFrom owns no surface,
    Destroy does nothing to it, and IsAlive is still true afterwards. *)
Lemma IsAlive_wrapping_counterexample :
  (Destroy engine0 ;; IsAlive) (fresh (WebContents_from (Some 1%nat)))
  = Done true (fresh (WebContents_from (Some 1%nat))).
Proof. reflexivity. Qed.

(** C9, amended: For an object made by Create, which owns its surface:
    after any sequence of calls that returns, IsAlive is true when the
    sequence holds no Destroy and false when it holds one, and it is
    false exactly when the storage has been released.  For an object made
    by CreateFrom, which owns no surface, IsAlive stays true through any
    sequence of calls that returns, Destroy included. *)
Theorem IsAlive_until_Destroy (engine : Engine) (cs : list Call)
    (w' : World) :
  (forall guestInstanceId storage web_contents,
      invoke_all engine cs
        (fresh (WebContents_options guestInstanceId storage web_contents))
      = Done tt w' ->
      IsAlive w' = Done (negb (existsb is_Destroy cs)) w' /\
      (IsAlive w' = Done false w' <-> storage_ (this w') = None))
  /\
  (forall web_contents,
      invoke_all engine cs (fresh (WebContents_from (Some web_contents)))
      = Done tt w' ->
      IsAlive w' = Done true w').
Proof.
  split.
  - intros gid st wc H.
    apply invoke_all_owned in H; [|discriminate].
    unfold surface in H. cbn [fresh this WebContents_options web_contents_
                              storage_] in H.
    unfold IsAlive, bind, read, ret.
    destruct (existsb is_Destroy cs); injection H as -> ->; cbn.
    + split; [reflexivity|]. split; reflexivity.
    + split; [reflexivity|]. split; discriminate.
  - intros wc H.
    apply invoke_all_released in H; [|reflexivity].
    unfold surface in H. cbn in H. injection H as Hwc _.
    unfold IsAlive, bind, read, ret. now rewrite Hwc.
Qed.

Lemma IsAlive_until_Destroy_witness :
  let before := [CallSetGuestHost (Some 2%nat); CallDidAttach 0] in
  let after := before ++ [CallDestroy; CallDestroy] in
  let made := fresh (WebContents_options (Some 5) 0%nat 1%nat) in
  let wrapped := fresh (WebContents_from (Some 1%nat)) in
  (exists w', invoke_all engine0 before made = Done tt w' /\
              IsAlive w' = Done true w') /\
  (exists w', invoke_all engine0 after made = Done tt w' /\
              IsAlive w' = Done false w') /\
  (exists w', invoke_all engine0 after wrapped = Done tt w' /\
              IsAlive w' = Done true w').
Proof.
  intros before after made wrapped. split; [|split].
  - exists (world_of (invoke_all engine0 before made)).
    split; [reflexivity|].
    exact (proj1 (proj1 (IsAlive_until_Destroy engine0 before _)
                    (Some 5) 0%nat 1%nat eq_refl)).
  - exists (world_of (invoke_all engine0 after made)).
    split; [reflexivity|].
    exact (proj1 (proj1 (IsAlive_until_Destroy engine0 after _)
                    (Some 5) 0%nat 1%nat eq_refl)).
  - exists (world_of (invoke_all engine0 after wrapped)).
    split; [reflexivity|].
    exact (proj2 (IsAlive_until_Destroy engine0 after _) 1%nat eq_refl).
Defined.

(** ** Attachment *)

(** C5, as stated, fails: after WillAttach with embedder 1 and then with
    embedder 2 the owner is 2, not 1. *)
Lemma WillAttach_twice_counterexample :
  match (WillAttach (Some 1%nat) 0 false ;;
         WillAttach (Some 2%nat) 0 false ;;
         GetOwnerWebContents) (fresh guest0) with
  | Done owner _ => owner = Some 2%nat /\ owner <> Some 1%nat
  | Crash _ => False
  end.
Proof. cbn. split; [reflexivity|discriminate]. Qed.

(** C5, amended: WillAttach stores the embedder and the full-page-plugin
    flag it is given, over whatever was stored: after two WillAttach calls
    the object holds the second embedder and the second flag. *)
Theorem WillAttach_overwrites (w : World)
    (e1 e2 : option handle) (i1 i2 : Z) (f1 f2 : bool) :
  (WillAttach e1 i1 f1 ;; WillAttach e2 i2 f2 ;; GetOwnerWebContents) w
  = Done e2
      (mkWorld (set_is_full_page_plugin_ f2
                  (set_embedder_web_contents_ e2 (this w)))
               (log w)).
Proof. destruct w as [[] lg]. reflexivity. Qed.

(** ** Size changes reported by the engine *)

(** C6: A guest-size-changed notification is ignored, the stored guest
    size untouched, when auto-size is off; when auto-size is on, a
    size-changed event with the stored size and then the new size is
    emitted, and the new size is stored. *)
Theorem GuestSizeChanged_spec (w : World) (new_size : gfx.Size) :
  GuestSizeChanged new_size w =
  if auto_size_enabled_ (this w) then
    Done tt
      (mkWorld (set_guest_size_ new_size (this w))
         (log w ++
          [Emit "size-changed"
             [AInt (gfx.width (guest_size_ (this w)));
              AInt (gfx.height (guest_size_ (this w)));
              AInt (gfx.width new_size); AInt (gfx.height new_size)]]))
  else Done tt w.
Proof.
  destruct w as [t lg]. unfold GuestSizeChanged, bind, read. cbn.
  now destruct (auto_size_enabled_ t).
Qed.

(** ** Favicons *)

Module SetFacts.

Import std_set.

Lemma lt_iff (a b : GURL) :
  lt a b = true <-> OrderedTypeEx.String_as_OT.lt (spec a) (spec b).
Proof.
  unfold lt, String.ltb.
  rewrite <- OrderedTypeEx.String_as_OT.cmp_lt.
  unfold OrderedTypeEx.String_as_OT.cmp.
  destruct (String.compare (spec a) (spec b)); split; congruence.
Qed.

Lemma lt_trans (a b c : GURL) :
  lt a b = true -> lt b c = true -> lt a c = true.
Proof.
  rewrite !lt_iff. apply OrderedTypeEx.String_as_OT.lt_trans.
Qed.

Lemma lt_spec_neq (a b : GURL) : lt a b = true -> spec a <> spec b.
Proof.
  rewrite lt_iff. apply OrderedTypeEx.String_as_OT.lt_not_eq.
Qed.

(** Neither below the other: the same key. *)
Lemma equivalent_spec (a b : GURL) :
  lt a b = false -> lt b a = false -> spec a = spec b.
Proof.
  unfold lt, String.ltb. intros H1 H2.
  apply String.compare_eq_iff.
  rewrite String.compare_antisym in H2.
  destruct (String.compare (spec a) (spec b)); cbn in *; congruence.
Qed.

Lemma valid_eq (a b : GURL) :
  is_valid a = true -> is_valid b = true -> spec a = spec b -> a = b.
Proof. destruct a, b. cbn. congruence. Qed.

Lemma In_insert (u : GURL) (s : list GURL) (x : GURL) :
  all_valid s -> is_valid u = true ->
  (In x (insert u s) <-> x = u \/ In x s).
Proof.
  intros Hs Hu. induction Hs as [|v s Hv Hs IH]; cbn.
  - intuition congruence.
  - destruct (lt u v) eqn:E1; [cbn; intuition congruence|].
    destruct (lt v u) eqn:E2; cbn.
    + rewrite IH. intuition congruence.
    + assert (u = v)
        by (apply valid_eq; auto using equivalent_spec).
      subst. intuition congruence.
Qed.

Lemma insert_valid (u : GURL) (s : list GURL) :
  all_valid s -> is_valid u = true -> all_valid (insert u s).
Proof.
  intros Hs Hu. unfold all_valid. rewrite Forall_forall. intros x Hx.
  apply In_insert in Hx; [|assumption..].
  destruct Hx as [->|Hx]; [assumption|].
  unfold all_valid in Hs. rewrite Forall_forall in Hs. auto.
Qed.

Lemma insert_bound (a u : GURL) (s : list GURL) :
  lt a u = true ->
  Forall (fun b => lt a b = true) s ->
  Forall (fun b => lt a b = true) (insert u s).
Proof.
  intros Ha Hs. induction Hs as [|v s Hv Hs IH]; cbn.
  - constructor; [assumption|constructor].
  - destruct (lt u v); [repeat constructor; assumption|].
    destruct (lt v u); constructor; assumption.
Qed.

Lemma insert_ordered (u : GURL) (s : list GURL) :
  ordered s -> ordered (insert u s).
Proof.
  intros Hs. induction Hs as [|v s Hs IH Hv]; cbn.
  - repeat constructor.
  - destruct (lt u v) eqn:E1.
    + constructor; [constructor; assumption|].
      constructor; [assumption|].
      eapply Forall_impl; [|exact Hv]. cbn. intros b. now apply lt_trans.
    + destruct (lt v u) eqn:E2.
      * constructor; [assumption|]. now apply insert_bound.
      * constructor; assumption.
Qed.

Lemma ordered_NoDup (s : list GURL) : ordered s -> NoDup (map spec s).
Proof.
  intros Hs. induction Hs as [|v s Hs IH Hv]; cbn; constructor;
    [|assumption].
  rewrite in_map_iff. intros (b & Hb & Hin).
  rewrite Forall_forall in Hv.
  apply (lt_spec_neq v b); auto.
Qed.

End SetFacts.

Lemma favicon_loop_spec (urls : list FaviconURL) (s : list GURL) :
  std_set.all_valid s -> std_set.ordered s ->
  std_set.all_valid (favicon_loop urls s) /\
  std_set.ordered (favicon_loop urls s) /\
  forall u, In u (favicon_loop urls s) <->
            In u s \/ (is_valid u = true /\ In (mkFaviconURL u FAVICON) urls).
Proof.
  revert s. induction urls as [|[url ty] urls IH]; intros s Hv Ho.
  - cbn. intuition.
  - cbn [favicon_loop icon_type icon_url].
    destruct ty; cbn [IconType_eqb negb];
      try (destruct (IH s Hv Ho) as (Hv' & Ho' & Hin);
           repeat split; try assumption;
           [intros H; apply Hin in H; cbn; intuition
           |intros H; apply Hin; cbn in H; intuition congruence]).
    destruct (is_valid url) eqn:Eu.
    + destruct (IH (std_set.insert url s)) as (Hv' & Ho' & Hin);
        [now apply SetFacts.insert_valid|now apply SetFacts.insert_ordered|].
      repeat split; try assumption.
      * intros H. apply Hin in H. rewrite SetFacts.In_insert in H by assumption.
        cbn. destruct H as [[->|H]|H]; intuition.
      * intros H. apply Hin. rewrite SetFacts.In_insert by assumption.
        cbn in H. destruct H as [H|[Hu [H|H]]]; auto.
        injection H as ->. auto.
    + destruct (IH s Hv Ho) as (Hv' & Ho' & Hin).
      repeat split; try assumption.
      * intros H. apply Hin in H. cbn. intuition.
      * intros H. apply Hin. cbn in H.
        destruct H as [H|[Hu [H|H]]]; auto.
        injection H as ->. congruence.
Qed.

(** C8, as stated, fails: a favicon-typed entry whose URL is not valid is
    left out of the payload. *)
Lemma DidUpdateFaviconURL_invalid_counterexample :
  let bad := mkGURL "http://[" false in
  let urls := [mkFaviconURL bad FAVICON] in
  icon_type (mkFaviconURL bad FAVICON) = FAVICON /\
  DidUpdateFaviconURL urls (fresh guest0)
  = Done tt (mkWorld guest0 [Emit "page-favicon-updated" [AUrlSet []]]).
Proof. split; reflexivity. Qed.

(** C8, amended: For every inbound list, one page-favicon-updated event
    is emitted whose payload holds exactly the valid URLs that the list
    gives with the favicon icon type: no URL twice, no URL that the list
    gives only with other icon types, and no invalid URL. *)
Theorem DidUpdateFaviconURL_payload (urls : list FaviconURL) (w : World) :
  exists payload,
    DidUpdateFaviconURL urls w
    = Done tt (mkWorld (this w)
                 (log w ++ [Emit "page-favicon-updated" [AUrlSet payload]]))
    /\ NoDup payload
    /\ NoDup (map spec payload)
    /\ forall u, In u payload <->
                 is_valid u = true /\ In (mkFaviconURL u FAVICON) urls.
Proof.
  exists (favicon_loop urls []).
  destruct (favicon_loop_spec urls []) as (Hv & Ho & Hin);
    [constructor|constructor|].
  split; [reflexivity|].
  assert (Hn := SetFacts.ordered_NoDup _ Ho).
  split; [exact (NoDup_map_inv _ _ Hn)|]. split; [exact Hn|].
  intros u. rewrite Hin. cbn. intuition.
Qed.

(** A list with a repeated favicon, a touch icon and an invalid URL. *)
Example DidUpdateFaviconURL_mixed :
  let a := mkGURL "http://a/favicon.ico" true in
  let b := mkGURL "http://b/icon.png" true in
  let t := mkGURL "http://a/touch.png" true in
  let bad := mkGURL "" false in
  DidUpdateFaviconURL
    [mkFaviconURL b FAVICON; mkFaviconURL t TOUCH_ICON;
     mkFaviconURL a FAVICON; mkFaviconURL bad FAVICON;
     mkFaviconURL b FAVICON]
    (fresh guest0)
  = Done tt (mkWorld guest0 [Emit "page-favicon-updated" [AUrlSet [a; b]]]).
Proof. reflexivity. Qed.

(** * Further properties *)

(** ** SetSize on an object without a surface *)

Lemma SetSize_without_surface (engine : Engine) (p : SetSizeParams)
    (w : World) :
  web_contents_ (this w) = None ->
  SetSize engine p w = Crash (mkWorld (after_clamp p (this w)) (log w)).
Proof. intros H. now rewrite SetSize_unfold, H. Qed.

(** X1: Once an object that owns its surface has been destroyed, SetSize
    with any parameters crashes on the null surface: no request reaches
    the engine, no event is emitted and the auto-size flag keeps its
    value, but the stored pair and normal size have already been
    overwritten. *)
Theorem SetSize_after_Destroy (engine : Engine) (p : SetSizeParams)
    (w : World) (st wc gh : handle) :
  storage_ (this w) = Some st ->
  web_contents_ (this w) = Some wc ->
  guest_host_ (this w) = Some gh ->
  exists w1 w2,
    Destroy engine w = Done tt w1 /\
    (Destroy engine ;; SetSize engine p) w = Crash w2 /\
    log w2 = log w1 /\
    auto_size_enabled_ (this w2) = auto_size_enabled_ (this w) /\
    stored_pair (this w2) = (clamped_min p (this w), clamped_max p (this w)) /\
    normal_size_ (this w2) = given_normal p (this w).
Proof.
  intros Hst Hwc Hgh.
  assert (Hd := Destroy_owned engine w st wc gh Hst Hwc Hgh).
  eexists. eexists. split; [exact Hd|].
  rewrite (bind_Done _ _ _ _ _ Hd).
  rewrite SetSize_without_surface by now destruct (this w).
  split; [reflexivity|]. cbn [this log].
  destruct (this w). cbn. repeat split.
Qed.

Lemma SetSize_after_Destroy_witness :
  exists w2,
    (Destroy engine0 ;;
     SetSize engine0
       (mkSetSizeParams (Some true) (Some (gfx.make 10 10))
          (Some (gfx.make 20 20)) None)) (fresh guest0)
    = Crash w2 /\
    emitted "size-changed" (log w2) = 0%nat /\
    auto_size_enabled_ (this w2) = false /\
    min_auto_size_ (this w2) = gfx.mkSize 10 10.
Proof.
  destruct (SetSize_after_Destroy engine0
              (mkSetSizeParams (Some true) (Some (gfx.make 10 10))
                 (Some (gfx.make 20 20)) None)
              (fresh guest0) 0%nat 1%nat 2%nat eq_refl eq_refl eq_refl)
    as (w1 & w2 & H1 & H2 & Hl & Ha & Hp & _).
  exists w2. split; [exact H2|].
  assert (E : Done tt w1 = Destroy engine0 (fresh guest0)) by now rewrite H1.
  injection E as ->.
  split; [now rewrite Hl|]. split; [exact Ha|].
  unfold stored_pair in Hp. now injection Hp as -> _.
Defined.

(** ** What holds between calls *)

Section Invariants.

Variable engine : Engine.

Lemma SetSize_enabling (p : SetSizeParams) (w : World) (wc : handle) :
  web_contents_ (this w) = Some wc ->
  resolved p (this w) = true ->
  SetSize engine p w =
  Done tt
    (mkWorld (set_auto_size_enabled_ true
                (set_normal_size_ gfx.zero (after_clamp p (this w))))
       (log w ++ [EnableAutoResize (GetRenderViewHost engine wc)
                    (clamped_min p (this w)) (clamped_max p (this w))])).
Proof. intros Hwc Hr. now rewrite SetSize_unfold, Hwc, Hr. Qed.

Lemma SetSize_Done_surface (p : SetSizeParams) (w w' : World) :
  SetSize engine p w = Done tt w' ->
  exists wc, web_contents_ (this w) = Some wc.
Proof.
  rewrite SetSize_unfold. cbv zeta.
  destruct (web_contents_ (this w)); [eauto|discriminate].
Qed.

Lemma SetSize_size_state (p : SetSizeParams) (w w' : World) :
  SetSize engine p w = Done tt w' -> size_state_ok (this w').
Proof.
  intros H. unfold size_state_ok.
  assert (Hf := SetSize_Done_flag engine p w w' H).
  assert (Hp := SetSize_pair engine p w). rewrite H in Hp.
  unfold stored_pair in Hp. cbn in Hp. injection Hp as Hmin Hmax.
  rewrite Hmin, Hmax, Hf. split; [apply clamped_le|].
  intros Hr. destruct (SetSize_Done_surface p w w' H) as [wc Hwc].
  rewrite (SetSize_enabling p w wc Hwc Hr) in H. injection H as <-.
  unfold resolved in Hr. apply andb_prop in Hr as [Hr Hr3].
  apply andb_prop in Hr as [_ Hr2].
  repeat split; assumption.
Qed.

Lemma Destroy_frame {B} (f : WebContents -> B) :
  (forall v t, f (set_guest_host_ v t) = f t) ->
  (forall v t, f (set_web_contents_ v t) = f t) ->
  (forall v t, f (set_storage_ v t) = f t) ->
  preserves f (Destroy engine).
Proof.
  intros H1 H2 H3.
  unfold Destroy, WebContentsDestroyed, RenderViewDeleted.
  repeat (intros; cbv zeta;
          first [ apply preserves_bind | apply preserves_ret
                | apply preserves_read | apply preserves_perform
                | apply preserves_deref
                | apply preserves_write; intros;
                  solve [apply H1 | apply H2 | apply H3]
                | match goal with
                  | |- preserves _ (match ?x with _ => _ end) => destruct x
                  end ]).
Qed.

Lemma invoke_size_fields (c : Call) :
  (forall p, c <> CallSetSize p) -> preserves size_fields (invoke engine c).
Proof.
  destruct c; cbn [invoke]; intros H.
  - now destruct (H params).
  - unfold GuestSizeChanged, GuestSizeChangedDueToAutoSize. frame.
  - unfold SetGuestHost. frame.
  - unfold WillAttach. frame.
  - unfold DidAttach. frame.
  - unfold DidUpdateFaviconURL. frame.
  - apply Destroy_frame; now intros v [].
Qed.

Lemma size_state_ok_fields (t t' : WebContents) :
  size_fields t' = size_fields t -> size_state_ok t -> size_state_ok t'.
Proof.
  unfold size_fields, size_state_ok. intros [= -> -> -> ->]. auto.
Qed.

Lemma invoke_size_state (c : Call) (w w' : World) :
  invoke engine c w = Done tt w' ->
  size_state_ok (this w) -> size_state_ok (this w').
Proof.
  intros H Hi.
  assert (Hc : (exists p, c = CallSetSize p) \/ forall p, c <> CallSetSize p)
    by (destruct c; [left; eauto|right; discriminate..]).
  destruct Hc as [[p ->]|Hn].
  - cbn [invoke] in H. exact (SetSize_size_state p w w' H).
  - apply (size_state_ok_fields (this w)); [|exact Hi].
    assert (Hp := invoke_size_fields c Hn w).
    rewrite H in Hp. exact Hp.
Qed.

End Invariants.

(** X2: Whatever calls are made on an object, in whatever order, as long
    as they return: the stored minimum stays below the stored maximum, and
    while auto-size is on both stored sizes are non-empty and the stored
    normal size is zero.  This holds from construction on. *)
Theorem size_state_invariant (engine : Engine) (cs : list Call)
    (w w' : World) :
  size_state_ok (this w) ->
  invoke_all engine cs w = Done tt w' ->
  size_state_ok (this w').
Proof.
  revert w. induction cs as [|c cs IH]; intros w Hi H.
  - now injection H as <-.
  - cbn [invoke_all] in H.
    apply bind_Done_inv in H as ([] & w1 & H1 & H2).
    apply (IH w1); [|exact H2].
    now apply (invoke_size_state engine c w w1).
Qed.

Lemma size_state_invariant_witness :
  let cs := [CallSetSize (mkSetSizeParams (Some true) (Some (gfx.make 50 50))
                            (Some (gfx.make 10 10)) (Some (gfx.make 7 7)));
             CallGuestSizeChanged (gfx.make 30 30);
             CallWillAttach (Some 9%nat) 0 false] in
  exists w',
    invoke_all engine0 cs (fresh guest0) = Done tt w' /\
    auto_size_enabled_ (this w') = true /\
    size_state_ok (this w').
Proof.
  intros cs.
  assert (H : exists w', invoke_all engine0 cs (fresh guest0) = Done tt w' /\
                         auto_size_enabled_ (this w') = true)
    by (vm_compute; eexists; split; reflexivity).
  destruct H as (w' & H & Ha).
  exists w'. split; [exact H|]. split; [exact Ha|].
  apply (size_state_invariant engine0 cs (fresh guest0) w'); [|exact H].
  split; [split; cbn; lia|discriminate].
Defined.

(** ** What is asked of the engine *)

Section Keeps.

Variable P : Effect -> Prop.

Lemma keeps_ret {A} (a : A) : keeps P (ret a).
Proof. now intros w. Qed.

Lemma keeps_read {A} (g : WebContents -> A) : keeps P (read g).
Proof. now intros w. Qed.

Lemma keeps_write (g : WebContents -> WebContents) : keeps P (write g).
Proof. now intros w. Qed.

Lemma keeps_deref {A} (p : option A) : keeps P (deref p).
Proof. intros w. now destruct p. Qed.

Lemma keeps_perform (e : Effect) : P e -> keeps P (perform e).
Proof.
  intros He w Hw. cbn. apply Forall_app. split; [assumption|].
  now constructor.
Qed.

Lemma keeps_bind {A C} (m : M A) (k : A -> M C) :
  keeps P m -> (forall a, keeps P (k a)) -> keeps P (bind m k).
Proof.
  intros Hm Hk w Hw. unfold bind. specialize (Hm w Hw).
  destruct (m w) as [a w1|w1]; cbn in *; [|assumption].
  now apply Hk.
Qed.

Lemma keeps_when (b : bool) (m : M unit) : keeps P m -> keeps P (when b m).
Proof. intros Hm. destruct b; [assumption|apply keeps_ret]. Qed.

End Keeps.

Ltac keeps_step :=
  repeat (intros; cbv zeta;
          first [ apply keeps_bind | apply keeps_ret | apply keeps_read
                | apply keeps_write | apply keeps_deref | apply keeps_when
                | apply keeps_perform; exact I
                | match goal with
                  | |- keeps _ (match ?x with _ => _ end) => destruct x
                  end ]).

Lemma SetSize_sound (engine : Engine) (p : SetSizeParams) :
  keeps sound_request (SetSize engine p).
Proof.
  intros w Hw. rewrite SetSize_unfold. cbv zeta.
  destruct (web_contents_ (this w)) as [wc|]; [|exact Hw].
  destruct (resolved p (this w)) eqn:Hr.
  - cbn. apply Forall_app. split; [assumption|]. constructor; [|constructor].
    unfold resolved in Hr. apply andb_prop in Hr as [Hr Hr3].
    apply andb_prop in Hr as [_ Hr2].
    cbn. repeat split; try assumption; apply clamped_le.
  - assert (K : keeps sound_request
                  (SetSize_disabling engine (GetRenderViewHost engine wc) ;;
                   write (set_auto_size_enabled_ false))).
    { unfold SetSize_disabling, GetDefaultSize,
        GuestSizeChangedDueToAutoSize. keeps_step. }
    exact (K (mkWorld (after_clamp p (this w)) (log w)) Hw).
Qed.

Lemma invoke_sound (engine : Engine) (c : Call) :
  keeps sound_request (invoke engine c).
Proof.
  destruct c; cbn [invoke].
  - apply SetSize_sound.
  - unfold GuestSizeChanged, GuestSizeChangedDueToAutoSize. keeps_step.
  - unfold SetGuestHost. keeps_step.
  - unfold WillAttach. keeps_step.
  - unfold DidAttach. keeps_step.
  - unfold DidUpdateFaviconURL. keeps_step.
  - unfold Destroy, WebContentsDestroyed, RenderViewDeleted. keeps_step.
Qed.

(** X3: In every run of calls, finished or cut short by a crash, each
    request to enable auto-resize that reaches the engine carries two
    non-empty sizes with the minimum below the maximum. *)
Theorem EnableAutoResize_always_sound (engine : Engine) (cs : list Call)
    (w : World) :
  Forall sound_request (log w) ->
  Forall sound_request (log (world_of (invoke_all engine cs w))).
Proof.
  revert w. induction cs as [|c cs IH]; intros w Hw; [exact Hw|].
  cbn [invoke_all].
  exact (keeps_bind sound_request _ _ (invoke_sound engine c)
           (fun _ w1 => IH w1) w Hw).
Qed.

Lemma EnableAutoResize_always_sound_witness :
  let cs := [CallSetSize (mkSetSizeParams (Some true) (Some (gfx.make 50 50))
                            (Some (gfx.make 10 10)) None);
             CallSetSize (mkSetSizeParams None (Some (gfx.make 0 0))
                            None None);
             CallDestroy;
             CallSetSize SetSizeParams_default] in
  Forall sound_request (log (world_of (invoke_all engine0 cs (fresh guest0)))).
Proof.
  intros cs.
  apply (EnableAutoResize_always_sound engine0 cs (fresh guest0)).
  constructor.
Defined.

(** ** Guest sizes reported in a row *)

Lemma last_default_irrelevant {A} (a : A) (l : list A) (d d' : A) :
  last (a :: l) d = last (a :: l) d'.
Proof.
  revert a. induction l as [|b l IH]; intros a; [reflexivity|].
  cbn [last] in *. apply IH.
Qed.

(** X4: With auto-size on, guest sizes reported one after the other
    produce one size-changed event each, every event starting from the
    size the previous one ended with, and leave the last reported size
    stored.  With auto-size off the whole run changes nothing. *)
Theorem GuestSizeChanged_chain (engine : Engine) (sizes : list gfx.Size)
    (w : World) :
  invoke_all engine (map CallGuestSizeChanged sizes) w =
  if auto_size_enabled_ (this w) then
    Done tt
      (mkWorld (set_guest_size_ (last sizes (guest_size_ (this w))) (this w))
         (log w ++ size_changes (guest_size_ (this w)) sizes))
  else Done tt w.
Proof.
  revert w. induction sizes as [|s sizes IH]; intros [t lg].
  - cbn. rewrite app_nil_r.
    destruct t as [? ? ? ? ? ? ae ? ? ? ? ?]. cbn. now destruct ae.
  - cbn [map invoke_all invoke]. unfold bind at 1.
    unfold GuestSizeChanged, GuestSizeChangedDueToAutoSize, bind, read,
      write, perform, ret. cbn [this log].
    destruct (auto_size_enabled_ t) eqn:Ha; cbn [negb].
    + rewrite IH. cbn [this log].
      destruct t as [? ? ? ? ? ? ae ? ? ? ? g]. cbn in *. rewrite Ha.
      rewrite <- app_assoc. cbn [app size_changes].
      destruct sizes as [|s0 sizes]; [reflexivity|].
      now rewrite (last_default_irrelevant s0 sizes s g).
    + rewrite IH. cbn [this]. now rewrite Ha.
Qed.

(** ** The favicon payload as a set *)

Lemma lt_irrefl (a : GURL) : std_set.lt a a = false.
Proof.
  destruct (std_set.lt a a) eqn:E; [|reflexivity].
  now apply SetFacts.lt_spec_neq in E.
Qed.

(** Two strictly increasing lists with the same elements are the same
    list. *)
Lemma ordered_ext (s1 s2 : list GURL) :
  std_set.ordered s1 -> std_set.ordered s2 ->
  (forall u, In u s1 <-> In u s2) -> s1 = s2.
Proof.
  intros H1. revert s2.
  induction H1 as [|a s1 H1 IH Ha]; intros s2 H2 Hin.
  - destruct s2 as [|b s2]; [reflexivity|].
    destruct (proj2 (Hin b)); now left.
  - destruct H2 as [|b s2 H2 Hb].
    + destruct (proj1 (Hin a)); now left.
    + rewrite Forall_forall in Ha, Hb.
      assert (Eab : a = b).
      { destruct (proj1 (Hin a) (or_introl eq_refl)) as [E|Hin2]; [auto|].
        destruct (proj2 (Hin b) (or_introl eq_refl)) as [E|Hin1]; [auto|].
        apply Ha in Hin1. apply Hb in Hin2.
        assert (F := SetFacts.lt_trans _ _ _ Hin1 Hin2).
        now rewrite lt_irrefl in F. }
      subst b. f_equal. apply IH; [assumption|].
      intros u. split; intros Hu.
      * destruct (proj1 (Hin u) (or_intror Hu)) as [<-|]; [|assumption].
        apply Ha in Hu. now rewrite lt_irrefl in Hu.
      * destruct (proj2 (Hin u) (or_intror Hu)) as [<-|]; [|assumption].
        apply Hb in Hu. now rewrite lt_irrefl in Hu.
Qed.

(** X5: The favicon payload is in strictly increasing URL order and is
    fixed by the set of valid URLs given with the favicon type: two
    inbound lists that agree on that set, however they order, repeat or
    pad it with other entries, produce the same payload. *)
Theorem favicon_payload_depends_on_set (urls urls' : list FaviconURL) :
  (forall u, gives_favicon urls u <-> gives_favicon urls' u) ->
  std_set.ordered (favicon_loop urls []) /\
  favicon_loop urls [] = favicon_loop urls' [] /\
  forall w, DidUpdateFaviconURL urls w = DidUpdateFaviconURL urls' w.
Proof.
  intros H.
  destruct (favicon_loop_spec urls []) as (_ & Ho & Hin);
    [constructor|constructor|].
  destruct (favicon_loop_spec urls' []) as (_ & Ho' & Hin');
    [constructor|constructor|].
  assert (E : favicon_loop urls [] = favicon_loop urls' []).
  { apply ordered_ext; try assumption.
    intros u. rewrite Hin, Hin'. unfold gives_favicon in H. cbn.
    specialize (H u). tauto. }
  split; [exact Ho|]. split; [exact E|].
  intros w. unfold DidUpdateFaviconURL. now rewrite E.
Qed.

Lemma favicon_payload_depends_on_set_witness :
  let a := mkGURL "http://a/favicon.ico" true in
  let b := mkGURL "http://b/icon.png" true in
  let bad := mkGURL "" false in
  favicon_loop [mkFaviconURL b FAVICON; mkFaviconURL a FAVICON] []
  = favicon_loop [mkFaviconURL a FAVICON; mkFaviconURL bad FAVICON;
                  mkFaviconURL b TOUCH_ICON; mkFaviconURL b FAVICON;
                  mkFaviconURL a FAVICON] [].
Proof.
  intros a b bad.
  apply (favicon_payload_depends_on_set
           [mkFaviconURL b FAVICON; mkFaviconURL a FAVICON]
           [mkFaviconURL a FAVICON; mkFaviconURL bad FAVICON;
            mkFaviconURL b TOUCH_ICON; mkFaviconURL b FAVICON;
            mkFaviconURL a FAVICON]).
  intros u. unfold gives_favicon. cbn.
  split; intros [Hv Hu]; (split; [exact Hv|]).
  - destruct Hu as [Hu|[Hu|[]]]; auto.
  - destruct Hu as [Hu|[Hu|[Hu|[Hu|[Hu|[]]]]]]; auto; try discriminate.
    injection Hu as <-. discriminate.
Defined.

(** ** The sizes the fixed-size path leaves *)

(** X6: When SetSize returns with auto-size off on an object that is not
    a full-page plugin, the stored guest size is non-empty and the stored
    normal size is either zero in both components or in neither: a normal
    size is never kept half given. *)
Theorem SetSize_fixed_sizes_sane (engine : Engine) (p : SetSizeParams)
    (w w' : World) :
  is_full_page_plugin_ (this w) = false ->
  SetSize engine p w = Done tt w' ->
  auto_size_enabled_ (this w') = false ->
  non_empty (guest_size_ (this w')) = true /\
  (gfx.width (normal_size_ (this w')) =? 0)
  = (gfx.height (normal_size_ (this w')) =? 0).
Proof.
  intros Hfp H Ha.
  assert (Hr := SetSize_Done_flag engine p w w' H). rewrite Ha in Hr.
  destruct (SetSize_Done_surface engine p w w' H) as [wc Hwc].
  assert (Hd : GetDefaultSize engine w = Done (gfx.mkSize 300 300) w)
    by (unfold GetDefaultSize, bind, read, ret; now rewrite Hfp).
  assert (Hwf : well_formed (gfx.mkSize 300 300)) by (split; cbn; lia).
  rewrite (SetSize_fixed_path engine p w wc _ Hwc (eq_sym Hr) Hd Hwf) in H.
  cbv zeta in H.
  assert (E : this w' =
              set_auto_size_enabled_ false
                (set_guest_size_
                   (target (given_normal p (this w)) (guest_size_ (this w))
                      (gfx.mkSize 300 300))
                   (set_normal_size_
                      (filled (given_normal p (this w)) (gfx.mkSize 300 300))
                      (after_clamp p (this w))))).
  { destruct (auto_size_enabled_ (this w)); [now injection H as <-|].
    destruct (guest_host_ (this w)); [now injection H as <-|discriminate]. }
  rewrite E. clear E H.
  destruct (given_normal p (this w)) as [nw nh],
           (guest_size_ (this w)) as [gw gh'].
  destruct (after_clamp p (this w)) as [? ? ? ? ? ? ? ? ? ? ? ?]. cbn.
  unfold target, filled, non_empty. cbn.
  destruct (nw =? 0) eqn:Enw, (nh =? 0) eqn:Enh,
           (gw =? 0) eqn:Egw, (gh' =? 0) eqn:Egh;
    repeat (progress (cbn; rewrite ?Enw, ?Enh, ?Egw, ?Egh)); auto.
Qed.

Lemma SetSize_fixed_sizes_sane_witness :
  exists w',
    SetSize engine0 (mkSetSizeParams None None None (Some (gfx.make 0 250)))
      (fresh guest0) = Done tt w' /\
    normal_size_ (this w') = gfx.mkSize 300 250 /\
    non_empty (guest_size_ (this w')) = true.
Proof.
  assert (H : exists w',
             SetSize engine0
               (mkSetSizeParams None None None (Some (gfx.make 0 250)))
               (fresh guest0) = Done tt w' /\
             normal_size_ (this w') = gfx.mkSize 300 250 /\
             auto_size_enabled_ (this w') = false)
    by (vm_compute; eexists; repeat split).
  destruct H as (w' & H & Hn & Ha).
  exists w'. split; [exact H|]. split; [exact Hn|].
  exact (proj1 (SetSize_fixed_sizes_sane engine0 _ (fresh guest0) w'
                  eq_refl H Ha)).
Defined.

(** ** SetSize twice *)

Section Twice.

Variable engine : Engine.

(** The object a returning [SetSize] leaves, off the full-page plugin
    case. *)
Lemma SetSize_Done_object (p : SetSizeParams) (w w' : World) :
  is_full_page_plugin_ (this w) = false ->
  SetSize engine p w = Done tt w' ->
  this w' =
  if resolved p (this w) then
    set_auto_size_enabled_ true
      (set_normal_size_ gfx.zero (after_clamp p (this w)))
  else
    set_auto_size_enabled_ false
      (set_guest_size_
         (target (given_normal p (this w)) (guest_size_ (this w)) plain_default_size)
         (set_normal_size_ (filled (given_normal p (this w)) plain_default_size)
            (after_clamp p (this w)))).
Proof.
  intros Hfp H.
  destruct (SetSize_Done_surface engine p w w' H) as [wc Hwc].
  destruct (resolved p (this w)) eqn:Hr.
  - rewrite (SetSize_enabling engine p w wc Hwc Hr) in H.
    now injection H as <-.
  - assert (Hd : GetDefaultSize engine w = Done plain_default_size w)
      by (unfold GetDefaultSize, bind, read, ret; now rewrite Hfp).
    assert (Hwf : well_formed plain_default_size)
      by (unfold well_formed, plain_default_size, kDefaultWidth,
            kDefaultHeight; cbn; lia).
    rewrite (SetSize_fixed_path engine p w wc _ Hwc Hr Hd Hwf) in H.
    cbv zeta in H.
    destruct (auto_size_enabled_ (this w)); [now injection H as <-|].
    destruct (guest_host_ (this w)); [now injection H as <-|discriminate].
Qed.

Lemma filled_twice (n : gfx.Size) : filled (filled n plain_default_size) plain_default_size = filled n plain_default_size.
Proof.
  destruct n as [nw nh]. unfold filled. cbn.
  destruct (nw =? 0) eqn:Enw, (nh =? 0) eqn:Enh; cbn;
    rewrite ?Enw, ?Enh; reflexivity.
Qed.

Lemma target_twice (n g : gfx.Size) :
  target (filled n plain_default_size) (target n g plain_default_size) plain_default_size = target n g plain_default_size.
Proof.
  unfold target. rewrite filled_twice.
  destruct (non_empty (filled n plain_default_size)) eqn:En; [reflexivity|].
  destruct (non_empty g) eqn:Eg; [now rewrite Eg|reflexivity].
Qed.

Lemma target_same_normal (n g : gfx.Size) :
  target n (target n g plain_default_size) plain_default_size = target n g plain_default_size.
Proof.
  unfold target.
  destruct (non_empty (filled n plain_default_size)) eqn:En; [reflexivity|].
  destruct (non_empty g) eqn:Eg; [now rewrite Eg|reflexivity].
Qed.

Lemma clamp_stable (p : SetSizeParams) (t t1 : WebContents) :
  (min_size p = None <-> max_size p = None) ->
  min_auto_size_ t1 = clamped_min p t ->
  max_auto_size_ t1 = clamped_max p t ->
  clamped_min p t1 = clamped_min p t /\ clamped_max p t1 = clamped_max p t.
Proof.
  intros Hmm Hmin Hmax.
  unfold clamped_min, clamped_max, given_min, given_max in *.
  destruct (min_size p) as [a|], (max_size p) as [b|].
  - split; reflexivity.
  - assert (Some a = None) by now apply Hmm. discriminate.
  - assert (Some b = None) by now apply Hmm. discriminate.
  - rewrite Hmin, Hmax. cbn. split; f_equal; lia.
Qed.

Lemma resolved_stable (p : SetSizeParams) (t t1 : WebContents) :
  clamped_min p t1 = clamped_min p t ->
  clamped_max p t1 = clamped_max p t ->
  auto_size_enabled_ t1 = resolved p t ->
  resolved p t1 = resolved p t.
Proof.
  intros Hmin Hmax Ha. unfold resolved in *. rewrite Hmin, Hmax.
  unfold requested in *. destruct (enable_auto_size p); [reflexivity|].
  rewrite Ha.
  destruct (auto_size_enabled_ t), (non_empty (clamped_min p t)),
           (non_empty (clamped_max p t)); reflexivity.
Qed.

(** X7: Off the full-page plugin case, SetSize is idempotent on the
    object whenever the parameters give both min and max or neither: a
    second call with the same parameters, if it returns, leaves every
    field as the first call left it. *)
Theorem SetSize_twice_same_object (p : SetSizeParams) (w w1 w2 : World) :
  is_full_page_plugin_ (this w) = false ->
  (min_size p = None <-> max_size p = None) ->
  SetSize engine p w = Done tt w1 ->
  SetSize engine p w1 = Done tt w2 ->
  this w2 = this w1.
Proof.
  intros Hfp Hmm H1 H2.
  assert (E1 := SetSize_Done_object p w w1 Hfp H1).
  assert (Hf : is_full_page_plugin_ (this w1) = false
               /\ min_auto_size_ (this w1) = clamped_min p (this w)
               /\ max_auto_size_ (this w1) = clamped_max p (this w)
               /\ auto_size_enabled_ (this w1) = resolved p (this w)).
  { rewrite E1. revert Hfp.
    destruct (resolved p (this w)), (this w); cbn; auto. }
  destruct Hf as (Hfp1 & Hmin & Hmax & Ha).
  assert (E2 := SetSize_Done_object p w1 w2 Hfp1 H2).
  destruct (clamp_stable p (this w) (this w1) Hmm Hmin Hmax) as [Cmin Cmax].
  rewrite (resolved_stable p (this w) (this w1) Cmin Cmax Ha) in E2.
  rewrite E2. unfold after_clamp. rewrite Cmin, Cmax.
  rewrite E1. clear.
  unfold given_normal.
  destruct (resolved p (this w)).
  - destruct (normal_size p), (this w); reflexivity.
  - destruct (normal_size p) as [n|], (this w) as [? ? ? ? ? ? ? ? ? ? sn sg];
      cbn; now rewrite ?filled_twice, ?target_twice, ?target_same_normal.
Qed.

End Twice.

Lemma SetSize_twice_same_object_witness :
  let p := mkSetSizeParams (Some true) (Some (gfx.make 10 10))
             (Some (gfx.make 20 20)) (Some (gfx.make 5 0)) in
  exists w1 w2,
    SetSize engine0 p (fresh guest0) = Done tt w1 /\
    SetSize engine0 p w1 = Done tt w2 /\
    this w2 = this w1.
Proof.
  intros p.
  assert (H : exists w1 w2,
             SetSize engine0 p (fresh guest0) = Done tt w1 /\
             SetSize engine0 p w1 = Done tt w2)
    by (vm_compute; eexists; eexists; split; reflexivity).
  destruct H as (w1 & w2 & H1 & H2).
  exists w1, w2. split; [exact H1|]. split; [exact H2|].
  apply (SetSize_twice_same_object engine0 p (fresh guest0) w1 w2);
    [reflexivity|split; discriminate|exact H1|exact H2].
Defined.

(** Why both or neither: a minimum given alone is first clamped against
    the stored maximum and then, on the second call, against the maximum
    the first call stored. *)
Example SetSize_min_alone_not_idempotent :
  let p := mkSetSizeParams None (Some (gfx.make 50 50)) None None in
  exists w1 w2,
    SetSize engine0 p (fresh guest0) = Done tt w1 /\
    SetSize engine0 p w1 = Done tt w2 /\
    min_auto_size_ (this w1) = gfx.mkSize 0 0 /\
    min_auto_size_ (this w2) = gfx.mkSize 50 50.
Proof. vm_compute. eexists. eexists. repeat split. Qed.

(** ** Transparency *)

Section TransparencyFacts.

Variable engine : Engine.
Variable browser : Browser.

Lemma SetAllowTransparency_same (allow : bool) (d : Delegate) :
  guest_opaque_ (object d) = negb allow ->
  SetAllowTransparency engine browser allow d = Returned tt d.
Proof.
  unfold SetAllowTransparency, bindD, peek. intros ->.
  now destruct allow.
Qed.

Lemma SetAllowTransparency_opaque (allow : bool) (d : Delegate) :
  guest_opaque_
    (object (delegate_of (SetAllowTransparency engine browser allow d)))
  = negb allow.
Proof.
  destruct d as [[wc st gi go gh em ae fp smn smx sn sg] dm h s].
  unfold SetAllowTransparency, bindD, peek, poke, derefD, send, retD. cbn.
  destruct go, allow; cbn; try reflexivity;
    destruct wc as [wc|]; cbn; try reflexivity;
    destruct (GetView browser (GetRenderViewHost engine wc)); reflexivity.
Qed.

(** X8: Whether it returns or faults, SetAllowTransparency leaves the
    object opaque exactly when transparency was refused; and asking twice
    for the same setting is the same as asking once: the second call
    changes nothing and sends nothing. *)
Theorem SetAllowTransparency_idempotent (allow : bool) (d : Delegate) :
  guest_opaque_
    (object (delegate_of (SetAllowTransparency engine browser allow d)))
  = negb allow /\
  bindD (SetAllowTransparency engine browser allow)
    (fun _ => SetAllowTransparency engine browser allow) d
  = SetAllowTransparency engine browser allow d.
Proof.
  split; [apply SetAllowTransparency_opaque|].
  assert (H := SetAllowTransparency_opaque allow d).
  unfold bindD.
  destruct (SetAllowTransparency engine browser allow d) as [[] d1|d1];
    [|reflexivity].
  now apply SetAllowTransparency_same.
Qed.

(** X9: On an object with a surface SetAllowTransparency always
    returns.  It sends one request, to the view, when the setting changes
    and the render view host has a view: a transparent background if
    transparency is now allowed, the default one if not.  It sends
    nothing when the setting is unchanged or there is no view. *)
Theorem SetAllowTransparency_requests (allow : bool) (d : Delegate)
    (wc : handle) :
  web_contents_ (object d) = Some wc ->
  SetAllowTransparency engine browser allow d =
  Returned tt
    (if Bool.eqb (guest_opaque_ (object d)) allow then
       mkDelegate (set_guest_opaque_ (negb allow) (object d))
         (dialog_manager_ d) (web_dialog_helper_ d)
         (sent d ++
          match GetView browser (GetRenderViewHost engine wc) with
          | Some view => [background_request allow view]
          | None => []
          end)
     else d).
Proof.
  destruct d as [[wc' st gi go gh em ae fp smn smx sn sg] dm h s].
  cbn. intros ->.
  unfold SetAllowTransparency, bindD, peek, poke, derefD, send, retD. cbn.
  destruct go, allow; cbn; try reflexivity;
    destruct (GetView browser (GetRenderViewHost engine wc)); cbn;
    rewrite ?app_nil_r; reflexivity.
Qed.

End TransparencyFacts.

Lemma SetAllowTransparency_requests_witness :
  SetAllowTransparency engine0 browser0 true (new_delegate guest0)
  = Returned tt
      (mkDelegate (set_guest_opaque_ false guest0) false None
         [View_SetBackgroundColor 50%nat SK_ColorTRANSPARENT]).
Proof.
  rewrite (SetAllowTransparency_requests engine0 browser0 true
             (new_delegate guest0) 1%nat eq_refl).
  reflexivity.
Defined.

(** X10: The setting outlives the view.  After SetAllowTransparency
    has returned, RenderViewReady on a guest with a surface and a view
    sends the background request for the setting last asked for, also
    when the view is not the one, or there was none, at the time of the
    setting.  On a non-guest RenderViewReady does nothing. *)
Theorem RenderViewReady_applies_setting (engine : Engine)
    (browser browser' : Browser) (allow : bool) (d d1 : Delegate) :
  SetAllowTransparency engine browser allow d = Returned tt d1 ->
  (forall wc view,
      guest_instance_id_ (object d) <> -1 ->
      web_contents_ (object d) = Some wc ->
      GetView browser' (GetRenderViewHost engine wc) = Some view ->
      RenderViewReady engine browser' d1
      = Returned tt (add_sent d1 [background_request allow view]))
  /\
  (guest_instance_id_ (object d) = -1 ->
   RenderViewReady engine browser' d1 = Returned tt d1).
Proof.
  intros H.
  assert (Ho := SetAllowTransparency_opaque engine browser allow d).
  rewrite H in Ho. cbn in Ho.
  assert (Hk : guest_instance_id_ (object d1) = guest_instance_id_ (object d)
               /\ web_contents_ (object d1) = web_contents_ (object d)).
  { revert H.
    destruct d as [[wc st gi go gh em ae fp smn smx sn sg] dm h s].
    unfold SetAllowTransparency, bindD, peek, poke, derefD, send, retD. cbn.
    destruct (Bool.eqb go allow); cbn; [|now intros [= <-]].
    destruct wc as [wc|]; cbn; [|discriminate].
    destruct (GetView browser (GetRenderViewHost engine wc)); cbn;
      [destruct allow; cbn|]; now intros [= <-]. }
  destruct Hk as [Hg Hw]. clear H.
  destruct d1 as [t1 dm1 h1 s1]. cbn in Ho, Hg, Hw. split.
  - intros wc view Hgi Hwc Hv.
    unfold RenderViewReady, is_guest, bindD, peek, retD, derefD, send,
      add_sent, background_request.
    apply Z.eqb_neq in Hgi. rewrite <- Hw in Hwc.
    repeat (progress (cbn; rewrite ?Hg, ?Hgi, ?Hwc, ?Ho, ?Hv)).
    now destruct allow.
  - intros Hgi.
    unfold RenderViewReady, is_guest, bindD, peek, retD.
    cbn. now rewrite Hg, Hgi.
Qed.

Lemma RenderViewReady_applies_setting_witness :
  let no_view :=
    mkBrowser (fun _ => None) (GetInfoForWebContents browser0)
      (FromWebContents browser0) (GetOrCreateAll browser0)
      (GetOrCreateFor browser0)
      (InspectableWebContents_GetWebContents browser0)
      (default_prevented browser0) in
  exists d1,
    SetAllowTransparency engine0 no_view true (new_delegate guest0)
    = Returned tt d1 /\
    sent d1 = [] /\
    RenderViewReady engine0 browser0 d1
    = Returned tt
        (add_sent d1 [View_SetBackgroundColor 50%nat SK_ColorTRANSPARENT]).
Proof.
  intros no_view.
  assert (H : exists d1,
             SetAllowTransparency engine0 no_view true (new_delegate guest0)
             = Returned tt d1 /\ sent d1 = [])
    by (vm_compute; eexists; split; reflexivity).
  destruct H as (d1 & H & Hs).
  exists d1. split; [exact H|]. split; [exact Hs|].
  apply (proj1 (RenderViewReady_applies_setting engine0 no_view browser0
                  true (new_delegate guest0) d1 H) 1%nat 50%nat);
    [discriminate|reflexivity|reflexivity].
Defined.

(** ** Devtools *)

Section DevToolsFacts.

Variable engine : Engine.
Variable browser : Browser.

Lemma InspectServiceWorker_loop_find (hosts : list AgentHost) (d : Delegate) :
  InspectServiceWorker_loop hosts d =
  match find is_service_worker hosts with
  | None => Returned tt d
  | Some agent_host =>
      match storage_ (object d) with
      | Some st =>
          Returned tt
            (add_sent d [Storage_SetCanDock st false; Storage_ShowDevTools st;
                         Storage_AttachTo st (agent agent_host)])
      | None => Faulted d
      end
  end.
Proof.
  induction hosts as [|h hosts IH]; [reflexivity|].
  cbn [InspectServiceWorker_loop find].
  destruct (is_service_worker h); [|exact IH].
  destruct d as [t dm hl s].
  unfold OpenDevTools, bindD, peek, derefD, send, add_sent. cbn.
  destruct (storage_ t) eqn:Hs; cbn; [|reflexivity].
  rewrite Hs. cbn. now rewrite <- !app_assoc.
Qed.

(** X11: InspectServiceWorker opens the devtools and attaches them to
    the first agent host that is a service worker, and to no other.
    When no agent host is a service worker it returns having done
    nothing, even on an object without storage; when one is and the
    object has no storage it faults before sending anything. *)
Theorem InspectServiceWorker_first (d : Delegate) :
  InspectServiceWorker browser d =
  match find is_service_worker (GetOrCreateAll browser) with
  | None => Returned tt d
  | Some agent_host =>
      match storage_ (object d) with
      | Some st =>
          Returned tt
            (add_sent d [Storage_SetCanDock st false; Storage_ShowDevTools st;
                         Storage_AttachTo st (agent agent_host)])
      | None => Faulted d
      end
  end.
Proof. apply InspectServiceWorker_loop_find. Qed.

Lemma lift_Returned {A} (m : M A) (d d1 : Delegate) (a : A) :
  lift m d = Returned a d1 ->
  exists w, m (mkWorld (object d) []) = Done a w /\ object d1 = this w.
Proof.
  unfold lift. destruct (m (mkWorld (object d) [])) as [a' w|w];
    [|discriminate].
  intros [= <- <-]. eauto.
Qed.

(** X12: The devtools methods go through the storage the object owns.
    Without it OpenDevTools, CloseDevTools and InspectElement fault
    before sending anything; that is the state of every object made by
    CreateFrom and of every object after a run of calls that returned
    and held a Destroy. *)
Theorem devtools_need_storage :
  (forall d x y,
      storage_ (object d) = None ->
      OpenDevTools d = Faulted d /\
      CloseDevTools d = Faulted d /\
      InspectElement browser x y d = Faulted d)
  /\
  (forall web_contents, storage_ (WebContents_from web_contents) = None)
  /\
  (forall cs d d1,
      existsb is_Destroy cs = true ->
      lift (invoke_all engine cs) d = Returned tt d1 ->
      storage_ (object d1) = None).
Proof.
  split; [|split].
  - intros [t dm h s] x y. cbn. intros Hs.
    unfold OpenDevTools, CloseDevTools, InspectElement, OpenDevTools,
      bindD, peek, derefD. cbn. rewrite Hs. auto.
  - reflexivity.
  - intros cs d d1 Hd H.
    apply lift_Returned in H as (w & H & ->).
    destruct (storage_ (object d)) eqn:Hs.
    + apply invoke_all_owned in H; [|cbn; congruence].
      rewrite Hd in H. unfold surface in H. now injection H.
    + apply invoke_all_released in H; [|exact Hs].
      unfold surface in H. cbn in H. injection H as _ ->. exact Hs.
Qed.

End DevToolsFacts.

Lemma devtools_need_storage_witness :
  exists d1,
    lift (invoke_all engine0 [CallDidAttach 0; CallDestroy])
      (new_delegate guest0) = Returned tt d1 /\
    OpenDevTools d1 = Faulted d1 /\
    OpenDevTools (new_delegate guest0)
    = Returned tt
        (add_sent (new_delegate guest0)
           [Storage_SetCanDock 0%nat false; Storage_ShowDevTools 0%nat]).
Proof.
  assert (H : exists d1,
             lift (invoke_all engine0 [CallDidAttach 0; CallDestroy])
               (new_delegate guest0) = Returned tt d1)
    by (vm_compute; eexists; reflexivity).
  destruct H as (d1 & H). exists d1. split; [exact H|].
  destruct (devtools_need_storage engine0 browser0) as (H1 & _ & H3).
  split; [|reflexivity].
  apply (H1 d1 0 0).
  apply (H3 [CallDidAttach 0; CallDestroy] (new_delegate guest0) d1);
    [reflexivity|exact H].
Defined.

(** ** Dialog helpers *)

Section DialogFacts.

Variable browser : Browser.

Lemma GetJavaScriptDialogManager_run (source : handle) (d : Delegate) :
  GetJavaScriptDialogManager source d =
  Returned true
    (mkDelegate (object d) true (web_dialog_helper_ d)
       (sent d ++ if dialog_manager_ d then []
                  else [New_AtomJavaScriptDialogManager])).
Proof.
  destruct d as [t dm h s].
  unfold GetJavaScriptDialogManager, bindD, inspect, update, send, retD. cbn.
  destruct dm; cbn; [now rewrite app_nil_r|reflexivity].
Qed.

Lemma RunFileChooser_run (guest params : handle) (d : Delegate) :
  let window :=
    match web_dialog_helper_ d with
    | Some window => window
    | None => GetWindowFromGuest browser guest
    end in
  RunFileChooser browser guest params d =
  Returned tt
    (mkDelegate (object d) (dialog_manager_ d) (Some window)
       (sent d ++
        match web_dialog_helper_ d with
         | Some _ => []
         | None => [New_WebDialogHelper window]
         end
        ++ [Helper_RunFileChooser window guest params])).
Proof.
  destruct d as [t dm h s].
  unfold RunFileChooser, bindD, inspect, update, send, retD, derefD. cbn.
  destruct h; cbn; [reflexivity|now rewrite <- app_assoc].
Qed.

Lemma EnumerateDirectory_run (guest : handle) (request_id : Z)
    (path : string) (d : Delegate) :
  let window :=
    match web_dialog_helper_ d with
    | Some window => window
    | None => GetWindowFromGuest browser guest
    end in
  EnumerateDirectory browser guest request_id path d =
  Returned tt
    (mkDelegate (object d) (dialog_manager_ d) (Some window)
       (sent d ++
        match web_dialog_helper_ d with
         | Some _ => []
         | None => [New_WebDialogHelper window]
         end
        ++ [Helper_EnumerateDirectory window guest request_id path])).
Proof.
  destruct d as [t dm h s].
  unfold EnumerateDirectory, bindD, inspect, update, send, retD, derefD. cbn.
  destruct h; cbn; [reflexivity|now rewrite <- app_assoc].
Qed.

Lemma invoke_dialog_run (c : DialogCall) (cs : list DialogCall)
    (d : Delegate) :
  exists d1 added,
    invoke_dialog browser c d = Returned tt d1 /\
    object d1 = object d /\
    sent d1 = sent d ++ added /\
    shared_window browser d1 cs = shared_window browser d (c :: cs) /\
    (web_dialog_helper_ d <> None ->
     web_dialog_helper_ d1 = web_dialog_helper_ d) /\
    (dialog_guest c <> None -> web_dialog_helper_ d1 <> None) /\
    (dialog_manager_ d = true -> dialog_manager_ d1 = true) /\
    (dialog_guest c = None -> dialog_manager_ d1 = true) /\
    filter is_New_WebDialogHelper added
    = match web_dialog_helper_ d, dialog_guest c with
      | None, Some g => [New_WebDialogHelper (GetWindowFromGuest browser g)]
      | _, _ => []
      end /\
    filter is_New_AtomJavaScriptDialogManager added
    = match dialog_guest c with
      | None => if dialog_manager_ d then []
                else [New_AtomJavaScriptDialogManager]
      | Some _ => []
      end /\
    (forall r window,
        In r added -> helper_window r = Some window ->
        window = shared_window browser d (c :: cs)).
Proof.
  destruct d as [t dm h s]. destruct c as [source|guest params|guest id path].
  - cbn [invoke_dialog]. unfold bindD.
    rewrite GetJavaScriptDialogManager_run. cbn.
    eexists. eexists. split; [reflexivity|]. cbn.
    unfold shared_window. cbn.
    repeat split; try reflexivity; try congruence.
    + now destruct h, dm.
    + now destruct dm.
    + intros r window Hr Hw. destruct dm; cbn in Hr; [contradiction|].
      destruct Hr as [<-|[]]. discriminate.
  - cbn [invoke_dialog]. rewrite RunFileChooser_run. cbn.
    eexists. eexists. split; [reflexivity|]. cbn.
    unfold shared_window. cbn.
    repeat split; try reflexivity; try congruence.
    + destruct h; congruence.
    + destruct h; cbn; reflexivity.
    + destruct h; cbn; reflexivity.
    + intros r window Hr Hw.
      destruct h; cbn in Hr;
        [destruct Hr as [<-|[]]
        |destruct Hr as [<-|[<-|[]]]]; cbn in Hw; congruence.
  - cbn [invoke_dialog]. rewrite EnumerateDirectory_run. cbn.
    eexists. eexists. split; [reflexivity|]. cbn.
    unfold shared_window. cbn.
    repeat split; try reflexivity; try congruence.
    + destruct h; congruence.
    + destruct h; cbn; reflexivity.
    + destruct h; cbn; reflexivity.
    + intros r window Hr Hw.
      destruct h; cbn in Hr;
        [destruct Hr as [<-|[]]
        |destruct Hr as [<-|[<-|[]]]]; cbn in Hw; congruence.
Qed.

Lemma invoke_dialogs_run (cs : list DialogCall) (d : Delegate) :
  exists d' added,
    invoke_dialogs browser cs d = Returned tt d' /\
    object d' = object d /\
    sent d' = sent d ++ added /\
    (web_dialog_helper_ d <> None ->
     filter is_New_WebDialogHelper added = []) /\
    (List.length (filter is_New_WebDialogHelper added) <= 1)%nat /\
    (dialog_manager_ d = true ->
     filter is_New_AtomJavaScriptDialogManager added = []) /\
    (List.length (filter is_New_AtomJavaScriptDialogManager added) <= 1)%nat
    /\
    (forall r window,
        In r added -> helper_window r = Some window ->
        window = shared_window browser d cs).
Proof.
  revert d. induction cs as [|c cs IH]; intros d.
  - exists d, []. cbn. rewrite app_nil_r.
    repeat split; auto. intros r window [].
  - destruct (invoke_dialog_run c cs d)
      as (d1 & a1 & H1 & Ho1 & Hs1 & Hw1 & Hh1 & Hg1 & Hm1 & Hn1 & Fh1 & Fm1
          & Hr1).
    destruct (IH d1) as (d' & a2 & H2 & Ho2 & Hs2 & Fh2 & Lh2 & Fm2 & Lm2 & Hr2).
    exists d', (a1 ++ a2). cbn [invoke_dialogs]. unfold bindD. rewrite H1.
    split; [exact H2|]. split; [congruence|].
    split; [now rewrite Hs2, Hs1, app_assoc|].
    rewrite !filter_app, !length_app.
    split; [|split; [|split; [|split]]].
    + intros Hh. rewrite Fh1, Fh2.
      * destruct (web_dialog_helper_ d); [reflexivity|congruence].
      * rewrite (Hh1 Hh). exact Hh.
    + rewrite Fh1.
      destruct (web_dialog_helper_ d) eqn:Eh.
      * rewrite Fh2; [cbn; lia|]. rewrite Hh1; congruence.
      * destruct (dialog_guest c) eqn:Eg.
        -- rewrite Fh2; [cbn; lia|]. apply Hg1. congruence.
        -- cbn. exact Lh2.
    + intros Hm. rewrite Fm1, Fm2, Hm; [|auto].
      now destruct (dialog_guest c).
    + rewrite Fm1. destruct (dialog_guest c) eqn:Eg; [cbn; exact Lm2|].
      rewrite Fm2; [|now apply Hn1].
      destruct (dialog_manager_ d); cbn; lia.
    + intros r window Hr Hw. apply in_app_or in Hr as [Hr|Hr].
      * exact (Hr1 r window Hr Hw).
      * rewrite <- Hw1. exact (Hr2 r window Hr Hw).
Qed.

End DialogFacts.

(** X13: A run of dialog calls never faults and leaves the object as it
    was.  It builds at most one dialog helper and at most one JavaScript
    dialog manager, none if the member is already set; and every file
    chooser and directory enumeration of the run goes to one window: that
    of the helper already there, else that of the guest of the first such
    call, whatever guests the later calls name. *)
Theorem dialogs_share_one_helper (browser : Browser)
    (cs : list DialogCall) (d : Delegate) :
  exists d' added,
    invoke_dialogs browser cs d = Returned tt d' /\
    object d' = object d /\
    sent d' = sent d ++ added /\
    (web_dialog_helper_ d <> None ->
     filter is_New_WebDialogHelper added = []) /\
    (List.length (filter is_New_WebDialogHelper added) <= 1)%nat /\
    (dialog_manager_ d = true ->
     filter is_New_AtomJavaScriptDialogManager added = []) /\
    (List.length (filter is_New_AtomJavaScriptDialogManager added) <= 1)%nat
    /\
    (forall r window,
        In r added -> helper_window r = Some window ->
        window = shared_window browser d cs).
Proof. apply invoke_dialogs_run. Qed.

(** Guest 1 sits in window 70 and guest 4 in none; asked first, guest 4
    fixes the helper, and the file chooser of guest 1 has no window. *)
Example dialogs_first_guest_wins :
  invoke_dialogs browser0
    [CallEnumerateDirectory 4%nat 0 "/tmp"; CallRunFileChooser 1%nat 9%nat]
    (new_delegate guest0)
  = Returned tt
      (mkDelegate guest0 false (Some None)
         [New_WebDialogHelper None;
          Helper_EnumerateDirectory None 4%nat 0 "/tmp";
          Helper_RunFileChooser None 1%nat 9%nat]).
Proof. reflexivity. Qed.

Lemma dialogs_share_one_helper_witness :
  let cs := [CallGetJavaScriptDialogManager 1%nat;
             CallRunFileChooser 1%nat 9%nat;
             CallEnumerateDirectory 4%nat 0 "/tmp";
             CallGetJavaScriptDialogManager 4%nat] in
  exists d',
    invoke_dialogs browser0 cs (new_delegate guest0) = Returned tt d' /\
    forall r window,
      In r (sent d') -> helper_window r = Some window -> window = Some 70%nat.
Proof.
  intros cs.
  destruct (dialogs_share_one_helper browser0 cs (new_delegate guest0))
    as (d' & added & H & _ & Hs & _ & _ & _ & _ & Hw).
  exists d'. split; [exact H|].
  intros r window Hr. rewrite Hs in Hr. cbn [sent new_delegate app] in Hr.
  exact (Hw r window Hr).
Defined.

(** ** Response headers *)










(** Two lines that differ in case only give one entry with the later
    value; a line named [__proto__], in whatever case, gives none. *)
Example response_headers_merge :
  response_headers_loop
    [("Content-Type", "text/HTML"); ("X-A", "1"); ("__Proto__", "evil");
     ("content-type", "Text/Plain")] []
  = [("content-type", "text/plain"); ("x-a", "1")].
Proof. reflexivity. Qed.

(** ** Navigation requests *)

Lemma OpenURLFromTab_cases (engine : Engine) (browser : Browser)
    (CURRENT_TAB : Z) (source : handle) (params : OpenURLParams.t)
    (d : Delegate) :
  let url := OpenURLParams.url params in
  let will_navigate := Raise "will-navigate" [VURL url] in
  OpenURLFromTab browser CURRENT_TAB source params d =
  if negb (OpenURLParams.disposition params =? CURRENT_TAB) then
    Returned None
      (add_sent d
         [Raise "-new-window"
            [VURL url; VString ""; VInt (OpenURLParams.disposition params)]])
  else if default_prevented browser "will-navigate" [VURL url] then
    Returned None (add_sent d [will_navigate])
  else
    match web_contents_ (object d) with
    | Some wc =>
        Returned (Some wc)
          (add_sent d
             [will_navigate;
              Controller_LoadURLWithParams wc
                (LoadURLParams.make url
                   (OpenURLParams.referrer params)
                   (OpenURLParams.transition params)
                   (OpenURLParams.extra_headers params)
                   (OpenURLParams.should_replace_current_entry params)
                   (OpenURLParams.is_renderer_initiated params)
                   (OpenURLParams.transferred_global_request_id params)
                   true)])
    | None => Faulted (add_sent d [will_navigate])
    end.
Proof.
  destruct d as [t dm h s]. cbv zeta.
  unfold OpenURLFromTab, Emit_, bindD, send, retD, peek, derefD, add_sent.
  cbn.
  destruct (OpenURLParams.disposition params =? CURRENT_TAB); cbn;
    [|reflexivity].
  destruct (default_prevented browser "will-navigate" _); [reflexivity|].
  destruct (web_contents_ t) eqn:Hwc; cbn; rewrite Hwc; cbn;
    [|reflexivity].
  now rewrite Hwc, <- app_assoc.
Qed.

(** X15: OpenURLFromTab navigates in one case only.  A load request goes
    to the controller, and the surface is handed back, exactly when the
    disposition is the current tab, no listener of will-navigate prevented
    the default and the object has a surface; the request then carries the
    URL asked for and clears the history list.  In every case the object
    is left as it was, and will-navigate is emitted only for the current
    tab. *)
Theorem OpenURLFromTab_navigates_iff (engine : Engine) (browser : Browser)
    (CURRENT_TAB : Z) (source : handle) (params : OpenURLParams.t)
    (d : Delegate) :
  let url := OpenURLParams.url params in
  let r := OpenURLFromTab browser CURRENT_TAB source params d in
  let navigates :=
    (OpenURLParams.disposition params =? CURRENT_TAB)
    && negb (default_prevented browser "will-navigate" [VURL url])
    && match web_contents_ (object d) with Some _ => true | None => false end
  in
  exists added,
    sent (delegate_of r) = sent d ++ added /\
    object (delegate_of r) = object d /\
    existsb is_load added = navigates /\
    (forall wc p,
        In (Controller_LoadURLWithParams wc p) added ->
        web_contents_ (object d) = Some wc /\
        LoadURLParams.url p = url /\
        LoadURLParams.should_clear_history_list p = true) /\
    match r with
    | Returned (Some wc) _ =>
        navigates = true /\ web_contents_ (object d) = Some wc
    | Returned None _ => navigates = false
    | Faulted _ => navigates = false
    end /\
    (In (Raise "will-navigate" [VURL url]) added ->
     OpenURLParams.disposition params = CURRENT_TAB).
Proof.
  cbv zeta. rewrite (OpenURLFromTab_cases engine). cbv zeta.
  destruct (OpenURLParams.disposition params =? CURRENT_TAB) eqn:Ed;
    cbn [negb andb].
  - apply Z.eqb_eq in Ed.
    destruct (default_prevented browser "will-navigate" _) eqn:Ep;
      cbn [negb andb].
    + eexists. split; [reflexivity|]. cbn.
      split; [reflexivity|]. split; [reflexivity|].
      split; [intros wc p [H|[]]; discriminate|]. auto.
    + destruct (web_contents_ (object d)) as [wc|] eqn:Ew.
      * eexists. split; [reflexivity|]. cbn.
        split; [reflexivity|]. split; [reflexivity|].
        split; [|auto].
        intros wc' p [H|[H|[]]]; [discriminate|].
        injection H as <- <-. auto.
      * eexists. split; [reflexivity|]. cbn.
        split; [reflexivity|]. split; [reflexivity|].
        split; [intros wc p [H|[]]; discriminate|]. auto.
  - eexists. split; [reflexivity|]. cbn.
    split; [reflexivity|]. split; [reflexivity|].
    split; [intros wc p [H|[]]; discriminate|].
    split; [reflexivity|]. intros [H|[]]. discriminate.
Qed.

Lemma OpenURLFromTab_navigates_iff_witness :
  let params :=
    OpenURLParams.make (mkGURL "http://a/" true) "" 2 0 "" false true (0, 0)
  in
  exists d',
    OpenURLFromTab browser0 2 1%nat params (new_delegate guest0)
    = Returned (Some 1%nat) d' /\
    forall wc p,
      In (Controller_LoadURLWithParams wc p) (sent d') ->
      LoadURLParams.should_clear_history_list p = true.
Proof.
  intros params.
  destruct (OpenURLFromTab_navigates_iff engine0 browser0 2 1%nat params
              (new_delegate guest0)) as (added & Hs & _ & _ & Hl & _).
  assert (H : exists d',
             OpenURLFromTab browser0 2 1%nat params (new_delegate guest0)
             = Returned (Some 1%nat) d')
    by (vm_compute; eexists; reflexivity).
  destruct H as (d' & H). exists d'. split; [exact H|].
  rewrite H in Hs. cbn [delegate_of sent new_delegate app] in Hs.
  intros wc p Hin. rewrite Hs in Hin. now apply (Hl wc p).
Defined.

(** ** Fullscreen *)

(** X16: A guest gets fullscreen only through the window that embeds
    it.  When the web view manager does not know the guest, or its
    embedder has no native window, entering and leaving fullscreen send
    nothing and emit nothing.  When there is a window, entering and then
    leaving tells that window to enter and to leave, has the guest's
    render view host resized each time, and emits the two events, each
    after its window has been told. *)
Theorem fullscreen_needs_window (engine : Engine) (browser : Browser)
    (source : handle) (origin : GURL) (d : Delegate) :
  (GetInfoForWebContents browser source = None ->
   GetWindowFromGuest browser source = None) /\
  (GetWindowFromGuest browser source = None ->
   EnterFullscreenModeForTab engine browser source origin d = Returned tt d /\
   ExitFullscreenModeForTab engine browser source d = Returned tt d) /\
  (forall window,
      GetWindowFromGuest browser source = Some window ->
      bindD (EnterFullscreenModeForTab engine browser source origin)
        (fun _ => ExitFullscreenModeForTab engine browser source) d
      = Returned tt
          (add_sent d
             [Window_SetHtmlApiFullscreen window true;
              Window_NotifyEnterHtmlFullScreen window;
              Rvh_WasResized (GetRenderViewHost engine source);
              Raise "enter-html-full-screen" [];
              Window_SetHtmlApiFullscreen window false;
              Window_NotifyLeaveHtmlFullScreen window;
              Rvh_WasResized (GetRenderViewHost engine source);
              Raise "leave-html-full-screen" []])).
Proof.
  split; [|split].
  - unfold GetWindowFromGuest. now intros ->.
  - unfold EnterFullscreenModeForTab, ExitFullscreenModeForTab.
    now intros ->.
  - intros window Hw.
    unfold EnterFullscreenModeForTab, ExitFullscreenModeForTab.
    rewrite Hw. destruct d as [t dm h s].
    unfold Emit_, bindD, send, retD, add_sent. cbn.
    now rewrite <- !app_assoc.
Qed.

Lemma fullscreen_needs_window_witness :
  EnterFullscreenModeForTab engine0 browser0 4%nat (mkGURL "http://a/" true)
    (new_delegate guest0)
  = Returned tt (new_delegate guest0) /\
  exists d',
    bindD (EnterFullscreenModeForTab engine0 browser0 1%nat
             (mkGURL "http://a/" true))
      (fun _ => ExitFullscreenModeForTab engine0 browser0 1%nat)
      (new_delegate guest0)
    = Returned tt d' /\
    List.length (sent d') = 8%nat.
Proof.
  destruct (fullscreen_needs_window engine0 browser0 4%nat
              (mkGURL "http://a/" true) (new_delegate guest0))
    as (_ & H2 & _).
  split; [exact (proj1 (H2 eq_refl))|].
  destruct (fullscreen_needs_window engine0 browser0 1%nat
              (mkGURL "http://a/" true) (new_delegate guest0))
    as (_ & _ & H3).
  eexists. split; [exact (H3 70%nat eq_refl)|]. reflexivity.
Defined.

